(** * Gray-matter segmentation driver (scripts/sct_segment_graymatter.py)

    A shallow embedding of the orchestration script: the external tools it
    launches are recorded as a trace of events, their answers are read from
    a [world], and Python exceptions are an explicit result. *)

From Stdlib Require Import String Ascii List ZArith QArith Qround Qabs Bool Lia.
Import ListNotations.
Local Open Scope string_scope.

(** ** Python values *)

(** The exceptions the script can meet.  [SystemExit] is what
    [sct.printv(..., type='error')] ends with; it is not an [Exception]. *)
Inductive exn : Type :=
| SystemExit
| PyException (msg : string)
| NameError (name : string)
| KeyError (key : string)
| IndexError
| ValueError
| AssertionError
| ZeroDivisionError
| TypeError.

(** [except Exception:] catches everything but interpreter exits. *)
Definition is_Exception (e : exn) : bool :=
  match e with
  | SystemExit => false
  | _ => true
  end.

Inductive result (A : Type) : Type :=
| Ok (a : A)
| Raise (e : exn).
Arguments Ok {A} a.
Arguments Raise {A} e.

(** [s.split(sep)] for a one-character separator. *)
Fixpoint split (sep : ascii) (s : string) : list string :=
  match s with
  | EmptyString => [EmptyString]
  | String c s' =>
      if Ascii.eqb c sep then EmptyString :: split sep s'
      else match split sep s' with
           | [] => [String c EmptyString]
           | p :: ps => String c p :: ps
           end
  end.

(** [a, b = l]: unpacking into two names. *)
Definition unpack2 (l : list string) : result (string * string) :=
  match l with
  | [a; b] => Ok (a, b)
  | _ => Raise ValueError
  end.

(** [round(x, 2)] of Python 2: to the nearest hundredth, halves away from
    zero.  Spacings are modelled as exact rationals. *)
Definition round_half_away (q : Q) : Z :=
  if Qle_bool 0 q then Qfloor (q + (1 # 2)) else Qceiling (q - (1 # 2)).

Definition round2 (q : Q) : Q := inject_Z (round_half_away (q * 100)) / 100.

(** [int(x)] truncates towards zero. *)
Definition py_int (q : Q) : Z := if Qle_bool 0 q then Qfloor q else Qceiling q.

(** ** Floats as the script uses them

    [compute_ratio] needs [float(s)], [a / b] and [str(x)].  They are an
    interface, so that nothing proved below depends on how floats are
    represented. *)
Class PyFloat (F : Type) : Type := {
  float : string -> option F;   (* [None]: ValueError *)
  is_zero : F -> bool;          (* [x == 0.0] *)
  fdiv : F -> F -> F;           (* the quotient, for a non-zero divisor *)
  str : F -> string
}.

(** [a / b] raises on a zero divisor. *)
Definition truediv {F} `{PyFloat F} (a b : F) : result F :=
  if is_zero b then Raise ZeroDivisionError else Ok (fdiv a b).

(** *** A rational instance, for running examples

    Decimal notation only ([-12.5], [7], [0.25]) with surrounding blanks
    stripped, exact division, and [str] printing up to twelve decimals. *)
Module QFloat.

Definition is_blank (c : ascii) : bool :=
  match nat_of_ascii c with
  | 32%nat | 9%nat | 10%nat | 13%nat => true
  | _ => false
  end.

Fixpoint lstrip (s : string) : string :=
  match s with
  | String c s' => if is_blank c then lstrip s' else s
  | EmptyString => EmptyString
  end.

Fixpoint rev_string (s acc : string) : string :=
  match s with
  | EmptyString => acc
  | String c s' => rev_string s' (String c acc)
  end.

Definition strip (s : string) : string :=
  rev_string (lstrip (rev_string (lstrip s) "")) "".

Definition digit (c : ascii) : option Z :=
  let n := Z.of_nat (nat_of_ascii c) in
  if ((48 <=? n) && (n <=? 57))%Z then Some (n - 48)%Z else None.

(** Reads digits; [seen] tells whether the point was passed, [num] is
    the digits read as one integer and [scale] the power of ten to
    divide it by. *)
Fixpoint digits (s : string) (seen any : bool) (num : Z) (scale : positive)
  : option Q :=
  match s with
  | EmptyString => if any then Some (Qred (num # scale)) else None
  | String c s' =>
      if Ascii.eqb c "." then
        if seen then None else digits s' true any num scale
      else match digit c with
           | Some d =>
               digits s' seen true (10 * num + d)
                      (if seen then (10 * scale)%positive else scale)
           | None => None
           end
  end.

Definition parse (s : string) : option Q :=
  match strip s with
  | String "-" s' => option_map Qopp (digits s' false false 0 1)
  | String "+" s' => digits s' false false 0 1
  | s' => digits s' false false 0 1
  end.

Definition digit_char (d : Z) : ascii := ascii_of_nat (Z.to_nat (48 + d)).

Fixpoint nat_digits (fuel : nat) (n : Z) (acc : string) : string :=
  match fuel with
  | O => acc
  | S fuel' =>
      let acc' := String (digit_char (n mod 10)) acc in
      if (n / 10 =? 0)%Z then acc' else nat_digits fuel' (n / 10) acc'
  end.

Definition show_nat (n : Z) : string := nat_digits (S (Z.to_nat n)) n "".

Fixpoint frac_digits (fuel : nat) (r : Q) : string :=
  match fuel with
  | O => ""
  | S fuel' =>
      let d := Qfloor (r * 10) in
      let r' := Qred (r * 10 - inject_Z d) in
      String (digit_char d)
             (if Qeq_bool r' 0 then "" else frac_digits fuel' r')
  end.

Definition show (q : Q) : string :=
  let a := Qred (Qabs q) in
  let n := Qfloor a in
  (if Qle_bool 0 q then "" else "-")
    ++ show_nat n ++ "." ++ frac_digits 12 (Qred (a - inject_Z n)).

#[export] Instance pyfloat : PyFloat Q := {
  float := parse;
  is_zero := fun q => Qeq_bool q 0;
  fdiv := fun a b => Qred (a / b);
  str := show
}.

End QFloat.

(** ** Images, external calls and the world *)

Definition slice : Type := list (list Q).
Definition volume : Type := list slice.

(** What the script reads of an [msct_image.Image]. *)
Record Image : Type := {
  path : string;
  file_name : string;
  ext : string;
  orientation : string;
  zooms : list Q;
  data : volume
}.

(** One external call, tagged with the line of the script that makes it. *)
Inductive event : Type :=
| Run (line : nat) (cmd : string) (status : Z) (output : string)
| Chdir (line : nat) (dir : string)
| CheckFileToNiigz (line : nat) (fname : string)
| GetDimension (line : nat) (fname : string) (px py : Q)
| ResampleImage (line : nat) (fname : string) (binary : bool) (npx npy : Q)
| Load (line : nat) (fname : string)
| DenoiseOrnlm (line : nat) (fname : string)
| Save (line : nat) (im : Image)
| CropT2Star (line : nat) (t2star sc_seg : string) (box_size : Z)
| ComputeLevelFile (line : nat) (t2star sc_seg t2 t2_seg t2_landmarks : string)
| InverseSquareCrop (line : nat) (im mask : string)
| InverseGmsegToWmseg (line : nat) (gm sc : string)
| ChangeOrientation (line : nat) (im : string) (code : string)
| CropFromSquareMask (line : nat) (im mask : string)
| ReadLines (line : nat) (file : string)
| Write (line : nat) (file : string) (text : string).

(** The answers of the tools and of the toolbox helpers that are not part
    of this script.  Each may depend on the moment of the call: the number
    of external calls made before it. *)
Record world : Type := {
  w_run : nat -> string -> Z * string;
  w_check_file_to_niigz : nat -> string -> option string;
  w_extract_fname : string -> string * string * string;
  w_get_dimension : nat -> string -> Q * Q;
  w_resample_image : nat -> string -> bool -> Q -> Q -> string;
  w_load : nat -> string -> Image;
  w_denoise_ornlm : nat -> Image -> Image;
  w_crop_t2_star : nat -> string -> string -> Z -> string;
  w_compute_level_file :
    nat -> string -> string -> string -> string -> string -> string;
  w_inverse_square_crop : nat -> Image -> Image -> Image;
  w_inverse_gmseg_to_wmseg : nat -> Image -> Image -> string -> Image;
  w_change_orientation : nat -> Image -> string -> Image;
  w_crop_from_square_mask : nat -> Image -> Image -> Image;
  w_readlines : nat -> string -> list string
}.

(** The line of the script an event comes from. *)
Definition event_line (e : event) : nat :=
  match e with
  | Run l _ _ _ | Chdir l _ | CheckFileToNiigz l _ | GetDimension l _ _ _
  | ResampleImage l _ _ _ _ | Load l _ | DenoiseOrnlm l _ | Save l _
  | CropT2Star l _ _ _ | ComputeLevelFile l _ _ _ _ _
  | InverseSquareCrop l _ _ | InverseGmsegToWmseg l _ _
  | ChangeOrientation l _ _ | CropFromSquareMask l _ _
  | ReadLines l _ | Write l _ _ => l
  end.

(** A command that ended with a failure status. *)
Definition failed (e : event) : bool :=
  match e with
  | Run _ _ status _ => negb (status =? 0)%Z
  | _ => false
  end.

Definition among (ls : list nat) (e : event) : bool :=
  existsb (Nat.eqb (event_line e)) ls.

(** Some command failed that is not at one of the lines [ls]. *)
Definition fails_outside (ls : list nat) (tr : list event) : bool :=
  existsb (fun e => failed e && negb (among ls e)) tr.

(** No event of the trace comes from one of the lines [ls]. *)
Definition never_at (ls : list nat) (tr : list event) : bool :=
  forallb (fun e => negb (among ls e)) tr.

(** The events of the trace that come from one of the lines [ls]. *)
Definition events_at (ls : list nat) (tr : list event) : list event :=
  filter (among ls) tr.

(** ** The monad of the script: a world to read, a trace to extend, and a
    value or an exception at the end. *)
Definition M (A : Type) : Type := world -> list event -> list event * result A.

Definition ret {A} (a : A) : M A := fun _ h => (h, Ok a).

Definition raise {A} (e : exn) : M A := fun _ h => (h, Raise e).

Definition bind {A B} (m : M A) (k : A -> M B) : M B :=
  fun w h =>
    match m w h with
    | (h', Ok a) => k a w h'
    | (h', Raise e) => (h', Raise e)
    end.

Declare Scope py_scope.
Delimit Scope py_scope with py.
Notation "x <- m ;; k" := (bind m (fun x => k))
  (at level 61, m at next level, right associativity) : py_scope.
Notation "' p <- m ;; k" := (bind m (fun x => let p := x in k))
  (at level 61, p pattern, m at next level, right associativity) : py_scope.
Notation "m ;; k" := (bind m (fun _ => k))
  (at level 61, right associativity) : py_scope.
Local Open Scope py_scope.

(** An external call whose answer [f] is read from the world and the
    history; [e] is what the trace keeps of it. *)
Definition ask {A} (e : event) (f : world -> list event -> A) : M A :=
  fun w h => ((h ++ [e])%list, Ok (f w h)).

Definition lift {A} (r : result A) : M A := fun _ h => (h, r).

(** [try: body except Exception: handler] *)
Definition try_except {A} (body handler : M A) : M A :=
  fun w h =>
    match body w h with
    | (h', Raise e) => if is_Exception e then handler w h' else (h', Raise e)
    | r => r
    end.

(** Modelled from the spec: [sct_utils.run] is not among the sources.  The
    spec has every tool invocation return a status and the captured
    output, a failure status being an error that ends the run; the
    overlap call of the validation asks for an exception instead
    ([raise_exception=True]), which is what its [except] clause catches. *)
Definition run_with (line : nat) (cmd : string) (error_exit : string)
  (raise_exception : bool) : M (Z * string) :=
  fun w h =>
    let '(status, output) := w_run w (length h) cmd in
    let h' := (h ++ [Run line cmd status output])%list in
    if (status =? 0)%Z then (h', Ok (status, output))
    else if raise_exception then (h', Raise (PyException output))
    else (h', Raise SystemExit).

Definition run (line : nat) (cmd : string) : M (Z * string) :=
  run_with line cmd "error" false.

Definition extract_fname (f : string) : M (string * string * string) :=
  fun w h => (h, Ok (w_extract_fname w f)).

Definition chdir (line : nat) (dir : string) : M unit :=
  ask (Chdir line dir) (fun _ _ => tt).

Definition check_file_to_niigz (line : nat) (f : string) : M (option string) :=
  ask (CheckFileToNiigz line f) (fun w h => w_check_file_to_niigz w (length h) f).

Definition get_dimension (line : nat) (f : string) : M (Q * Q) :=
  fun w h =>
    let '(px, py) := w_get_dimension w (length h) f in
    ((h ++ [GetDimension line f px py])%list, Ok (px, py)).

Definition resample_image (line : nat) (f : string) (binary : bool)
  (npx npy : Q) : M string :=
  ask (ResampleImage line f binary npx npy)
      (fun w h => w_resample_image w (length h) f binary npx npy).

Definition load (line : nat) (f : string) : M Image :=
  ask (Load line f) (fun w h => w_load w (length h) f).

Definition save (line : nat) (im : Image) : M unit :=
  ask (Save line im) (fun _ _ => tt).

Definition fname_of (im : Image) : string := file_name im ++ ext im.

Definition set_data (im : Image) (d : volume) : Image :=
  {| path := path im; file_name := file_name im; ext := ext im;
     orientation := orientation im; zooms := zooms im; data := d |}.

Definition set_zooms (im : Image) (z : list Q) : Image :=
  {| path := path im; file_name := file_name im; ext := ext im;
     orientation := orientation im; zooms := z; data := data im |}.

(** [im.path = p; im.file_name = n; im.ext = e] *)
Definition rename (im : Image) (p n e : string) : Image :=
  {| path := p; file_name := n; ext := e;
     orientation := orientation im; zooms := zooms im; data := data im |}.

(** [l[i]] *)
Definition index (l : list string) (i : nat) : M string :=
  match nth_error l i with
  | Some x => ret x
  | None => raise IndexError
  end.

(** ** class Preprocessing *)
Module Preprocessing.

Record t : Type := {
  t2star : string;
  sc_seg : string;
  resample_to : Q;
  t2 : option string;
  t2_seg : option string;
  t2_landmarks : option string;
  original_px : Q;
  original_py : Q;
  original_orientation : string;
  square_mask : string;
  treated_target : string;
  level_fname : option string
}.

(** The test of line 60. *)
Definition needs_resampling (px py resample_to : Q) : bool :=
  negb (Qeq_bool (round2 px) resample_to)
  || negb (Qeq_bool (round2 py) resample_to).

(** Lines 24-92.  [level_fname], [t2_data]: [None] is Python's [None].
    The local names [level_file_name] and [level_ext] are bound only when
    [check_file_to_niigz] answers a file name: [level_names] is [None]
    while they are not. *)
Definition __init__ (target_fname sc_seg_fname tmp_dir : string)
  (t2_data : option (list string)) (level_fname : option string)
  (denoising : bool) : M t :=
  let t2star := "target.nii.gz" in
  let sc_seg := "target_sc_seg.nii.gz" in
  let resample_to := 3 # 10 in
  (* 31-38 *)
  '(t2_data, level_names) <-
    match level_fname with
    | Some lf =>
        level_fname_nii <- check_file_to_niigz 33 lf ;;
        match level_fname_nii with
        | Some nii =>
            if nii =? "" then ret (None, None)
            else
              '(_, level_file_name, level_ext) <- extract_fname nii ;;
              run 36 ("cp " ++ nii ++ " " ++ tmp_dir ++ "/"
                        ++ level_file_name ++ level_ext) ;;
              ret (None, Some (level_file_name, level_ext))
        | None => ret (None, None)
        end
    | None => ret (t2_data, None)
    end ;;
  (* 40-45 *)
  let '(t2, t2_seg, t2_landmarks) :=
    match t2_data with
    | Some _ => (Some "t2.nii.gz", Some "t2_seg.nii.gz",
                 Some "t2_landmarks.nii.gz")
    | None => (None, None, None)
    end in
  (* 47-52 *)
  run 47 ("cp " ++ target_fname ++ " " ++ tmp_dir ++ "/" ++ t2star) ;;
  run 48 ("cp " ++ sc_seg_fname ++ " " ++ tmp_dir ++ "/" ++ sc_seg) ;;
  match t2_data with
  | Some d =>
      d0 <- index d 0 ;;
      run 50 ("cp " ++ d0 ++ " " ++ tmp_dir ++ "/" ++ "t2.nii.gz") ;;
      d1 <- index d 1 ;;
      run 51 ("cp " ++ d1 ++ " " ++ tmp_dir ++ "/" ++ "t2_seg.nii.gz") ;;
      d2 <- index d 2 ;;
      run 52 ("cp " ++ d2 ++ " " ++ tmp_dir ++ "/" ++ "t2_landmarks.nii.gz") ;;
      ret tt
  | None => ret tt
  end ;;
  (* 55 *)
  chdir 55 tmp_dir ;;
  (* 58-62 *)
  '(original_px, original_py) <- get_dimension 58 t2star ;;
  '(t2star, sc_seg) <-
    (if needs_resampling original_px original_py resample_to then
       t2star' <- resample_image 61 t2star false resample_to resample_to ;;
       sc_seg' <- resample_image 62 sc_seg true resample_to resample_to ;;
       ret (t2star', sc_seg')
     else ret (t2star, sc_seg)) ;;
  (* 65-69 *)
  t2star_im <- load 65 t2star ;;
  '(t2star_im, t2star) <-
    (if denoising then
       t2star_im' <- ask (DenoiseOrnlm 67 (fname_of t2star_im))
                         (fun w h => w_denoise_ornlm w (length h) t2star_im) ;;
       save 68 t2star_im' ;;
       ret (t2star_im', fname_of t2star_im')
     else ret (t2star_im, t2star)) ;;
  (* 75 *)
  let original_orientation := orientation t2star_im in
  (* 77 *)
  let box_size := py_int ((225 # 10) / resample_to) in
  square_mask <- ask (CropT2Star 77 t2star sc_seg box_size)
                     (fun w h => w_crop_t2_star w (length h) t2star sc_seg box_size) ;;
  (* 79 *)
  '(_, t2star_base, _) <- extract_fname t2star ;;
  let treated_target := t2star_base ++ "_seg_in_croped.nii.gz" in
  (* 81-90 *)
  level_fname' <-
    match t2_data with
    | Some _ =>
        let t2n := "t2.nii.gz" in
        let t2s := "t2_seg.nii.gz" in
        let t2l := "t2_landmarks.nii.gz" in
        l <- ask (ComputeLevelFile 83 t2star sc_seg t2n t2s t2l)
                 (fun w h => w_compute_level_file w (length h) t2star sc_seg t2n t2s t2l) ;;
        ret (Some l)
    | None =>
        match level_fname with
        | Some _ =>
            match level_names with
            | None => raise (NameError "level_file_name")
            | Some (level_file_name, level_ext) =>
                '(_, level_orientation) <-
                  run 85 ("sct_orientation -i " ++ level_file_name ++ level_ext) ;;
                level_file_name <-
                  (if negb (level_orientation =? "IRP") then
                     run 88 ("sct_orientation -i " ++ level_file_name
                               ++ level_ext ++ " -s IRP") ;;
                     ret (level_file_name ++ "_IRP")
                   else ret level_file_name) ;;
                ret (Some (level_file_name ++ level_ext))
            end
        | None => ret None
        end
    end ;;
  (* 92 *)
  chdir 92 ".." ;;
  ret {| t2star := t2star; sc_seg := sc_seg; resample_to := resample_to;
         t2 := t2; t2_seg := t2_seg; t2_landmarks := t2_landmarks;
         original_px := original_px; original_py := original_py;
         original_orientation := original_orientation;
         square_mask := square_mask; treated_target := treated_target;
         level_fname := level_fname' |}.

End Preprocessing.

(** ** Geometry of the crop and of the resampling

    [crop_t2_star], [Image.crop_from_square_mask], [inverse_square_crop]
    and [resample_image] live in modules of the toolbox that are not among
    the sources; their effect on voxels is modelled here. *)
Module Geometry.

(** Modelled from the spec: the CropMask, "a derived geometric descriptor
    (center, fixed physical box size converted to voxels)" over the
    pre-crop extent.  The box is kept by its first row and column. *)
Record CropMask : Type := {
  full_rows : nat;
  full_cols : nat;
  row0 : nat;
  col0 : nat;
  box : nat
}.

Definition in_mask (m : CropMask) (i j : nat) : bool :=
  (row0 m <=? i)%nat && (i <? row0 m + box m)%nat
  && (col0 m <=? j)%nat && (j <? col0 m + box m)%nat.

(** The box lies within the extent. *)
Definition fits (m : CropMask) : Prop :=
  (row0 m + box m <= full_rows m)%nat /\ (col0 m + box m <= full_cols m)%nat.

Definition pixel (s : slice) (i j : nat) : Q := nth j (nth i s []) 0.

Definition voxel (v : volume) (k i j : nat) : Q := pixel (nth k v []) i j.

Definition slice_extent (rows cols : nat) (s : slice) : Prop :=
  length s = rows /\ Forall (fun r => length r = cols) s.

Definition has_extent (v : volume) (rows cols : nat) : Prop :=
  Forall (slice_extent rows cols) v.

Definition window {A} (start len : nat) (l : list A) : list A :=
  firstn len (skipn start l).

Definition pad {A} (z : A) (before after : nat) (l : list A) : list A :=
  (repeat z before ++ l ++ repeat z after)%list.

Definition crop_slice (m : CropMask) (s : slice) : slice :=
  map (window (col0 m) (box m)) (window (row0 m) (box m) s).

(** Modelled from the spec: "crop the subject volume to this box". *)
Definition crop_from_square_mask (v : volume) (m : CropMask) : volume :=
  map (crop_slice m) v.

Definition inverse_crop_slice (m : CropMask) (c : slice) : slice :=
  pad (repeat 0 (full_cols m)) (row0 m) (full_rows m - row0 m - box m)
      (map (pad 0 (col0 m) (full_cols m - col0 m - box m)) c).

(** Modelled from the spec: "paste the volume's data back into a
    full-extent volume sized to match the pre-crop processing-space
    extent, using the same CropMask offset used for cropping; all
    outside-mask voxels are background/zero". *)
Definition inverse_square_crop (c : volume) (m : CropMask) : volume :=
  map (inverse_crop_slice m) c.

Definition binary_value (x : Q) : Prop := x = 0 \/ x = 1.

Definition is_binary (v : volume) : Prop :=
  Forall (Forall (Forall binary_value)) v.

(** Number of samples after resampling [n] samples of spacing [p] to
    spacing [np]. *)
Definition new_size (n : nat) (p np : Q) : nat :=
  Z.to_nat (round_half_away (inject_Z (Z.of_nat n) * p / np)).

(** The sample of the source grid nearest to the centre of target
    sample [i]. *)
Definition nearest (i : nat) (p np : Q) : nat :=
  Z.to_nat (Qfloor ((inject_Z (Z.of_nat i) + (1 # 2)) * np / p)).

Definition resample_row {A} (d : A) (p np : Q) (l : list A) : list A :=
  map (fun i => nth (nearest i p np) l d) (seq 0 (new_size (length l) p np)).

(** Modelled from the spec: resampling of a segmentation in the plane
    with "nearest/binary-preserving interpolation": every voxel of the
    result is the nearest voxel of the source (background outside). *)
Definition resample_binary (px py npx npy : Q) (v : volume) : volume :=
  map (fun s => resample_row [] px npx (map (resample_row 0 py npy) s)) v.

Definition vmap (f : Q -> Q) (v : volume) : volume := map (map (map f)) v.


End Geometry.

(** ** class FullGmSegmentation *)

(** The newline character. *)
Definition nl : string := String (ascii_of_nat 10) EmptyString.

(** [s[n:]] *)
Fixpoint drop (n : nat) (s : string) : string :=
  match n, s with
  | O, _ => s
  | S n', String _ s' => drop n' s'
  | S _, EmptyString => EmptyString
  end.

(** [str(n)] for an integer. *)
Definition str_int (n : Z) : string :=
  ((if n <? 0 then "-" else "") ++ QFloat.show_nat (Z.abs n))%Z.

Module FullGmSegmentation.

(** The fields of [SegmentationParam] the methods below read. *)
Record Param : Type := {
  res_type : string;
  verbose : Z
}.

(** The results held by [self.gm_seg]. *)
Record GMseg : Type := {
  res_wm_seg : Image;
  res_gm_seg : Image;
  corrected_wm_seg : Image
}.

Record t : Type := {
  param : Param;
  target_fname : string;
  sc_seg_fname : string;
  ref_gm_seg_fname : string;
  preprocessed : Preprocessing.t;
  gm_seg : GMseg
}.

(** Lines 176-195, for one result image: the name under which it is
    delivered. *)
Definition post_process_one (self : t) (square_mask res_im : Image) : M string :=
  let pre := preprocessed self in
  res_im_original_space <-
    ask (InverseSquareCrop 177 (fname_of res_im) (fname_of square_mask))
        (fun w h => w_inverse_square_crop w (length h) res_im square_mask) ;;
  save 178 res_im_original_space ;;
  run 179 ("sct_orientation -i " ++ file_name res_im_original_space
             ++ ".nii.gz -s " ++ Preprocessing.original_orientation pre) ;;
  '(_, target_base, _) <- extract_fname (target_fname self) ;;
  '(_, treated_base, _) <- extract_fname (Preprocessing.treated_target pre) ;;
  let res_name :=
    target_base ++ drop (String.length treated_base) (file_name res_im)
      ++ ".nii.gz" in
  let bin := res_type (param self) =? "binary" in
  old_res_name <-
    resample_image 186 (file_name res_im_original_space ++ "_RPI.nii.gz") bin
      (Preprocessing.original_px pre) (Preprocessing.original_py pre) ;;
  (if res_type (param self) =? "prob" then
     run 191 ("sct_maths -i " ++ old_res_name ++ " -thr 0.05 -o " ++ old_res_name) ;;
     ret tt
   else ret tt) ;;
  run 193 ("cp " ++ old_res_name ++ " ../" ++ res_name) ;;
  ret res_name.

(** Lines 173-198; the value is [self.res_names]. *)
Definition post_processing (self : t) : M (list (string * string)) :=
  square_mask <- load 174 (Preprocessing.square_mask (preprocessed self)) ;;
  wm <- post_process_one self square_mask (res_wm_seg (gm_seg self)) ;;
  gm <- post_process_one self square_mask (res_gm_seg (gm_seg self)) ;;
  cwm <- post_process_one self square_mask (corrected_wm_seg (gm_seg self)) ;;
  ret [("wm_seg", wm); ("gm_seg", gm); ("corrected_wm_seg", cwm)].


Section Ratio.
Context {F : Type} `{PyFloat F}.

Definition py_float (s : string) : M F :=
  match float s with
  | Some x => ret x
  | None => raise ValueError
  end.

(** Lines 220-223: the line written for one pair of lines read. *)
Definition ratio_line (gm_line wm_line : string) : M string :=
  '(i, gm_area) <- lift (unpack2 (split "," gm_line)) ;;
  '(j, wm_area) <- lift (unpack2 (split "," wm_line)) ;;
  (if i =? j then ret tt else raise AssertionError) ;;
  g <- py_float gm_area ;;
  w <- py_float wm_area ;;
  q <- lift (truediv g w) ;;
  ret (i ++ "," ++ str q ++ nl).

(** Lines 219-223, over [zip(gm_lines, wm_lines)]. *)
Fixpoint ratio_loop (pairs : list (string * string)) : M unit :=
  match pairs with
  | [] => ret tt
  | (gm_line, wm_line) :: rest =>
      text <- ratio_line gm_line wm_line ;;
      ask (Write 223 "ratio.txt" text) (fun _ _ => tt) ;;
      ratio_loop rest
  end.

(** A line of a [csa] file, read as the record (index, area). *)
Definition reads_as (line : string) (r : string * F) : Prop :=
  exists a, split "," line = [fst r; a] /\ float a = Some (snd r).

(** The two sequences agree on the index and the white-matter area is
    not zero, at every position they share. *)
Definition aligned (gm wm : list (string * F)) : Prop :=
  Forall (fun p => fst (fst p) = fst (snd p) /\ is_zero (snd (snd p)) = false)
         (combine gm wm).

(** The records (index, gray area / white area), as written. *)
Definition ratio_records (gm wm : list (string * F)) : list event :=
  map (fun p => Write 223 "ratio.txt"
                  (fst (fst p) ++ "," ++ str (fdiv (snd (fst p)) (snd (snd p)))
                     ++ nl))
      (combine gm wm).

(** Lines 201-225. *)
Definition compute_ratio (res_names : list (string * string)) : M unit :=
  let lookup k :=
    match find (fun kv => fst kv =? k) res_names with
    | Some kv => ret (snd kv)
    | None => raise (KeyError k)
    end in
  gm <- lookup "gm_seg" ;;
  run 202 ("sct_process_segmentation -i " ++ gm ++ " -p csa -o gm_csa ") ;;
  run 203 "mv csa.txt gm_csa.txt" ;;
  wm <- lookup "corrected_wm_seg" ;;
  run 205 ("sct_process_segmentation -i " ++ wm ++ " -p csa -o wm_csa ") ;;
  run 206 "mv csa.txt wm_csa.txt" ;;
  gm_lines <- ask (ReadLines 213 "gm_csa.txt")
                  (fun w h => w_readlines w (length h) "gm_csa.txt") ;;
  wm_lines <- ask (ReadLines 214 "wm_csa.txt")
                  (fun w h => w_readlines w (length h) "wm_csa.txt") ;;
  ratio_loop (combine gm_lines wm_lines).

End Ratio.

(** Lines 239-244: the copies of the results that are compared with the
    reference. *)
Definition ge (thr : Q) (x : Q) : Q := if Qle_bool thr x then 1 else 0.

Definition binarize_for_validation (res_type : string) (gm wm : Image)
  : Image * Image :=
  let res_gm_seg_bin := gm in
  let res_wm_seg_bin := wm in
  if res_type =? "prob" then
    (set_data res_gm_seg_bin (Geometry.vmap (ge (5 # 10)) (data res_gm_seg_bin)),
     set_data res_wm_seg_bin (Geometry.vmap (ge (50001 # 100000)) (data res_wm_seg_bin)))
  else (res_gm_seg_bin, res_wm_seg_bin).

Definition dice_cmd (ref res : string) : string :=
  "sct_dice_coefficient " ++ ref ++ " " ++ res ++ "  -2d-slices 2".

(** The commands of the fallback (lines 316-318 and 324-326): a
    registration by translation with no iteration ([-c 0]) of the
    reference onto the result, then a threshold at 0.1 and a
    binarisation of the registered reference. *)
Definition registration_cmd (ref res ext : string) : string :=
  "isct_antsRegistration -d 3 -t Translation[0] -m MI[" ++ res ++ ext
    ++ "," ++ ref ++ ext ++ ",1,16] -o [reg_ref_to_res," ++ ref
    ++ "_in_res_space" ++ ext ++ "] -n BSpline[3] -c 0 -f 1 -s 0".

Definition threshold_cmd (ref ext : string) : string :=
  "sct_maths -i " ++ ref ++ "_in_res_space" ++ ext ++ " -thr 0.1 -o "
    ++ ref ++ "_in_res_space" ++ ext.

Definition binarize_cmd (ref ext : string) : string :=
  "sct_maths -i " ++ ref ++ "_in_res_space" ++ ext ++ " -bin -o "
    ++ ref ++ "_in_res_space" ++ ext.

(** Lines 312-319 and 320-327: the overlap of a reference with a result,
    [l] being the line of the [try]. *)
Definition dice (l : nat) (ref res ext : string) : M (Z * string) :=
  try_except
    (run_with (l + 1) (dice_cmd (ref ++ ext) (res ++ ext)) "warning" true)
    (run (l + 4) (registration_cmd ref res ext) ;;
     run (l + 5) (threshold_cmd ref ext) ;;
     run (l + 6) (binarize_cmd ref ext) ;;
     run_with (l + 7)
         (dice_cmd (ref ++ "_in_res_space" ++ ext) (res ++ ext)) "warning" false).

Definition change_orientation (line : nat) (im : Image) (code : string) : M Image :=
  ask (ChangeOrientation line (fname_of im) code)
      (fun w h => w_change_orientation w (length h) im code).

Definition crop_from_square_mask (line : nat) (im mask : Image) : M Image :=
  ask (CropFromSquareMask line (fname_of im) (fname_of mask))
      (fun w h => w_crop_from_square_mask w (length h) im mask).

Definition write (line : nat) (file text : string) : M unit :=
  ask (Write line file text) (fun _ _ => tt).

(** Lines 230-347. *)
Definition validation (self : t) : M (string * string) :=
  let pre := preprocessed self in
  let rt := res_type (param self) in
  let resample_to := Preprocessing.resample_to pre in
  let ext := ".nii.gz" in
  let validation_dir := "validation" in
  run 233 ("mkdir " ++ validation_dir) ;;
  (* 236-237 *)
  '(_, ref_base, _) <- extract_fname (ref_gm_seg_fname self) ;;
  im_ref_gm_seg <- load 236 (ref_base ++ ext) ;;
  '(_, sc_base, _) <- extract_fname (sc_seg_fname self) ;;
  sc_im <- load 237 (sc_base ++ ext) ;;
  im_ref_wm_seg <-
    ask (InverseGmsegToWmseg 237 (fname_of im_ref_gm_seg) (fname_of sc_im))
        (fun w h => w_inverse_gmseg_to_wmseg w (length h) im_ref_gm_seg sc_im
                      (file_name im_ref_gm_seg)) ;;
  (* 239-244 *)
  let '(res_gm_seg_bin, res_wm_seg_bin) :=
    binarize_for_validation rt (res_gm_seg (gm_seg self))
                            (res_wm_seg (gm_seg self)) in
  (* 246-249 *)
  mask <- load 246 (Preprocessing.square_mask pre) ;;
  chdir 249 validation_dir ;;
  (* 251-257 *)
  let im_ref_gm_seg := rename im_ref_gm_seg "./" "ref_gm_seg" ext in
  save 254 im_ref_gm_seg ;;
  ref_gm_seg_new_name <-
    resample_image 255 (file_name im_ref_gm_seg ++ ext) true
                   resample_to resample_to ;;
  im_ref_gm_seg <- load 256 ref_gm_seg_new_name ;;
  run 257 ("rm " ++ ref_gm_seg_new_name) ;;
  (* 259-265 *)
  let im_ref_wm_seg := rename im_ref_wm_seg "./" "ref_wm_seg" ext in
  save 262 im_ref_wm_seg ;;
  ref_wm_seg_new_name <-
    resample_image 263 (file_name im_ref_wm_seg ++ ext) true
                   resample_to resample_to ;;
  im_ref_wm_seg <- load 264 ref_wm_seg_new_name ;;
  run 265 ("rm " ++ ref_wm_seg_new_name) ;;
  (* 267-275 *)
  im_ref_gm_seg <- change_orientation 268 im_ref_gm_seg "IRP" ;;
  im_ref_wm_seg <- change_orientation 269 im_ref_wm_seg "IRP" ;;
  im_ref_gm_seg <- crop_from_square_mask 271 im_ref_gm_seg mask ;;
  im_ref_wm_seg <- crop_from_square_mask 272 im_ref_wm_seg mask ;;
  im_ref_gm_seg <- change_orientation 274 im_ref_gm_seg "RPI" ;;
  im_ref_wm_seg <- change_orientation 275 im_ref_wm_seg "RPI" ;;
  (* 278-296 *)
  let res_gm_seg_bin := rename res_gm_seg_bin "./" "res_gm_seg_bin" ext in
  save 281 res_gm_seg_bin ;;
  let res_wm_seg_bin := rename res_wm_seg_bin "./" "res_wm_seg_bin" ext in
  save 286 res_wm_seg_bin ;;
  let im_ref_gm_seg := rename im_ref_gm_seg "./" "ref_gm_seg" ext in
  save 291 im_ref_gm_seg ;;
  let im_ref_wm_seg := rename im_ref_wm_seg "./" "ref_wm_seg" ext in
  save 296 im_ref_wm_seg ;;
  (* 298-301 *)
  run 298 ("sct_orientation -i " ++ file_name res_gm_seg_bin ++ ext ++ " -s RPI") ;;
  let res_gm_seg_bin_name := file_name res_gm_seg_bin ++ "_RPI" in
  run 300 ("sct_orientation -i " ++ file_name res_wm_seg_bin ++ ext ++ " -s RPI") ;;
  let res_wm_seg_bin_name := file_name res_wm_seg_bin ++ "_RPI" in
  (* 303-309 *)
  res_gm_seg_bin <- load 303 (res_gm_seg_bin_name ++ ext) ;;
  let im_ref_gm_seg := set_zooms im_ref_gm_seg (zooms res_gm_seg_bin) in
  save 305 im_ref_gm_seg ;;
  res_wm_seg_bin <- load 307 (res_wm_seg_bin_name ++ ext) ;;
  let im_ref_wm_seg := set_zooms im_ref_wm_seg (zooms res_wm_seg_bin) in
  save 309 im_ref_wm_seg ;;
  (* 311-327 *)
  '(status_gm, output_gm) <-
    dice 312 (file_name im_ref_gm_seg) (file_name res_gm_seg_bin) ext ;;
  '(status_wm, output_wm) <-
    dice 320 (file_name im_ref_wm_seg) (file_name res_wm_seg_bin) ext ;;
  (* 329-339 *)
  '(_, target_base, _) <- extract_fname (target_fname self) ;;
  let dice_name := "dice_" ++ target_base ++ "_" ++ rt ++ ".txt" in
  let dice_fic := "../../" ++ dice_name in
  (if rt =? "prob" then
     write 332 dice_fic
       ("WARNING : the probabilistic segmentations were binarized with a threshold at 0.5 to compute the dice coefficient "
          ++ nl)
   else ret tt) ;;
  write 333 dice_fic
    (nl ++ "--------------------------------------------------------------"
        ++ nl ++ "Dice coefficient on the Gray Matter segmentation:" ++ nl) ;;
  write 335 dice_fic output_gm ;;
  write 336 dice_fic
    (nl ++ nl ++ "--------------------------------------------------------------"
        ++ nl ++ "Dice coefficient on the White Matter segmentation:" ++ nl) ;;
  write 338 dice_fic output_wm ;;
  (* 342-347 *)
  let hd_name := "hd_" ++ target_base ++ "_" ++ rt ++ ".txt" in
  run 343 ("sct_compute_hausdorff_distance.py -i " ++ file_name res_gm_seg_bin
             ++ ext ++ " -r " ++ file_name im_ref_gm_seg ++ ext ++ " -t 1 -o "
             ++ hd_name ++ " -v " ++ str_int (verbose (param self))) ;;
  run 344 ("mv ./" ++ hd_name ++ " ../../") ;;
  chdir 346 ".." ;;
  ret (dice_name, hd_name).

End FullGmSegmentation.

(** ** A world for running examples *)

Definition blank_image : Image :=
  {| path := "./"; file_name := "target"; ext := ".nii.gz";
     orientation := "RPI"; zooms := [1; 1; 1]; data := [] |}.

(** Every command succeeds and prints [out]; the subject has in-plane
    spacing [px], [py]; file names are split at the first dot. *)
Fixpoint stem (s : string) : string :=
  match s with
  | EmptyString => EmptyString
  | String c s' => if Ascii.eqb c "." then EmptyString else String c (stem s')
  end.

Definition calm_world (out : string) (px py : Q) : world := {|
  w_run := fun _ _ => (0%Z, out);
  w_check_file_to_niigz := fun _ f => Some f;
  w_extract_fname :=
    fun f => ("", stem f, drop (String.length (stem f)) f);
  w_get_dimension := fun _ _ => (px, py);
  w_resample_image := fun _ f _ _ _ => stem f ++ "_resampled.nii.gz";
  w_load := fun _ f => rename blank_image "./" (stem f) ".nii.gz";
  w_denoise_ornlm :=
    fun _ im => rename im (path im) (file_name im ++ "_denoised") (ext im);
  w_crop_t2_star := fun _ t _ _ => stem t ++ "_square_mask.nii.gz";
  w_compute_level_file := fun _ t _ _ _ _ => stem t ++ "_levels.nii.gz";
  w_inverse_square_crop :=
    fun _ im _ => rename im (path im) (file_name im ++ "_original_extent") (ext im);
  w_inverse_gmseg_to_wmseg := fun _ gm _ n => rename gm (path gm) (n ++ "_wm") (ext gm);
  w_change_orientation :=
    fun _ im code =>
      {| path := path im; file_name := file_name im; ext := ext im;
         orientation := code; zooms := zooms im; data := data im |};
  w_crop_from_square_mask := fun _ im _ => im;
  w_readlines := fun _ _ => []
|}.

(** A world whose commands answer by [f]. *)
Definition with_run (f : nat -> string -> Z * string) (w : world) : world :=
  {| w_run := f;
     w_check_file_to_niigz := w_check_file_to_niigz w;
     w_extract_fname := w_extract_fname w;
     w_get_dimension := w_get_dimension w;
     w_resample_image := w_resample_image w;
     w_load := w_load w;
     w_denoise_ornlm := w_denoise_ornlm w;
     w_crop_t2_star := w_crop_t2_star w;
     w_compute_level_file := w_compute_level_file w;
     w_inverse_square_crop := w_inverse_square_crop w;
     w_inverse_gmseg_to_wmseg := w_inverse_gmseg_to_wmseg w;
     w_change_orientation := w_change_orientation w;
     w_crop_from_square_mask := w_crop_from_square_mask w;
     w_readlines := w_readlines w |}.

(** The calm world, where the commands of [bad] fail with status 1. *)
Definition world_failing_all (bad : list string) (out : string) (px py : Q)
  : world :=
  with_run (fun _ c => if existsb (String.eqb c) bad then (1%Z, "error")
                       else (0%Z, out))
           (calm_world out px py).

Definition world_failing (bad : string) (out : string) (px py : Q) : world :=
  world_failing_all [bad] out px py.

(** A subject with one-voxel probabilistic results. *)
Definition one_voxel (n : string) (x : Q) : Image :=
  {| path := "./"; file_name := n; ext := ".nii.gz"; orientation := "IRP";
     zooms := [3 # 10; 3 # 10; 1]; data := [[[x]]] |}.

Definition small_subject (res_type : string) : FullGmSegmentation.t :=
  {| FullGmSegmentation.param :=
       {| FullGmSegmentation.res_type := res_type;
          FullGmSegmentation.verbose := 0 |};
     FullGmSegmentation.target_fname := "t2star.nii.gz";
     FullGmSegmentation.sc_seg_fname := "t2star_seg.nii.gz";
     FullGmSegmentation.ref_gm_seg_fname := "manual_gm.nii.gz";
     FullGmSegmentation.preprocessed :=
       {| Preprocessing.t2star := "target.nii.gz";
          Preprocessing.sc_seg := "target_sc_seg.nii.gz";
          Preprocessing.resample_to := 3 # 10;
          Preprocessing.t2 := None;
          Preprocessing.t2_seg := None;
          Preprocessing.t2_landmarks := None;
          Preprocessing.original_px := 1 # 2;
          Preprocessing.original_py := 1 # 2;
          Preprocessing.original_orientation := "RPI";
          Preprocessing.square_mask := "target_square_mask.nii.gz";
          Preprocessing.treated_target := "target_seg_in_croped.nii.gz";
          Preprocessing.level_fname := None |};
     FullGmSegmentation.gm_seg :=
       {| FullGmSegmentation.res_wm_seg :=
            one_voxel "target_seg_in_croped_res_wmseg" (1 # 2);
          FullGmSegmentation.res_gm_seg :=
            one_voxel "target_seg_in_croped_res_gmseg" (1 # 2);
          FullGmSegmentation.corrected_wm_seg :=
            one_voxel "target_seg_in_croped_corrected_wmseg" (7 # 10) |} |}.

(** ** Properties of runs *)

(** Every event of the trace satisfies [P], provided those before the run
    did. *)
Definition preserves {A} (P : event -> Prop) (m : M A) : Prop :=
  forall w h, Forall P h -> Forall P (fst (m w h)).

(** A run in which a command fails elsewhere than at the lines [ok] ends
    on [SystemExit]. *)
Definition aborts_on_failure {A} (ok : list nat) (m : M A) : Prop :=
  forall w h,
    fails_outside ok h = false ->
    fails_outside ok (fst (m w h)) = true ->
    snd (m w h) = Raise SystemExit.

(** The image saved at line [l], if [e] is that event, has the voxels [d]. *)
Definition saves (l : nat) (d : volume) (e : event) : Prop :=
  match e with
  | Save l' im => l' = l -> data im = d
  | _ => True
  end.

(** A volume of two 3x4 slices and a 2x2 box at row 1, column 1. *)
Definition small_volume : volume :=
  [ [ [1; 2; 3; 4]; [5; 6; 7; 8]; [9; 10; 11; 12] ];
    [ [13; 14; 15; 16]; [17; 18; 19; 20]; [21; 22; 23; 24] ] ].

Definition small_mask : Geometry.CropMask :=
  {| Geometry.full_rows := 3; Geometry.full_cols := 4;
     Geometry.row0 := 1; Geometry.col0 := 1; Geometry.box := 2 |}.

(** ** Volumes, voxel by voxel *)

(** [v'] has the shape of [v], and [R] relates each voxel of [v] to the
    voxel of [v'] at the same place. *)
Definition pointwise (R : Q -> Q -> Prop) (v v' : volume) : Prop :=
  Forall2 (Forall2 (Forall2 R)) v v'.

(** ** Directories and results of runs *)

(** The directories the run moved to ([os.chdir]), in order. *)
Definition chdirs (tr : list event) : list string :=
  flat_map (fun e => match e with Chdir _ d => [d] | _ => [] end) tr.

(** The run moves through the directories [ds], in order: all of them when
    it ends normally, the first ones when it is cut short. *)
Definition walks {A} (ds : list string) (m : M A) : Prop :=
  forall w h,
    exists p s,
      chdirs (fst (m w h)) = (chdirs h ++ p)%list
      /\ ds = (p ++ s)%list
      /\ (forall a, snd (m w h) = Ok a -> s = []).

(** The run adds the events [es] at the lines [ls], in order: all of them
    when it ends normally, the first ones when it is cut short. *)
Definition emits {A} (ls : list nat) (es : list event) (m : M A) : Prop :=
  forall w h,
    exists p s,
      events_at ls (fst (m w h)) = (events_at ls h ++ p)%list
      /\ es = (p ++ s)%list
      /\ (forall a, snd (m w h) = Ok a -> s = []).

(** In the world [w], a value the run ends with satisfies [P]. *)
Definition returns {A} (w : world) (P : A -> Prop) (m : M A) : Prop :=
  forall h a, snd (m w h) = Ok a -> P a.

(** The command of line [l], if [e] is a command of that line, is [c]. *)
Definition command_at (l : nat) (c : string) (e : event) : Prop :=
  forall c' st out, e = Run l c' st out -> c' = c.

(** The lines of the validation, and of its preparation in
    [segmentation_pipeline] (159-162). *)
Definition validation_lines (e : event) : bool :=
  let l := event_line e in
  ((159 <=? l)%nat && (l <=? 165)%nat) || ((230 <=? l)%nat && (l <=? 347)%nat).

(** ** FullGmSegmentation.segmentation_pipeline *)

Module Pipeline.

(** The attributes of [self] that [segmentation_pipeline] reads;
    [target_denoising] is [self.param.target_denoising]. *)
Record t : Type := {
  param : FullGmSegmentation.Param;
  target_denoising : bool;
  target_fname : string;
  sc_seg_fname : string;
  t2_data : option (list string);
  level_fname : option string;
  ref_gm_seg_fname : option string;
  tmp_dir : string
}.

(** The attributes it sets; [names] is [(self.dice_name,
    self.hausdorff_name)], left at [None] by [__init__]. *)
Record outcome : Type := {
  preprocessed : Preprocessing.t;
  level_to_use : option string;
  gm_seg : FullGmSegmentation.GMseg;
  names : option (string * string);
  res_names : list (string * string)
}.

(** [self] as [validation] and [post_processing] read it.  The name of the
    reference is read by [validation] only, which is called only when
    there is one. *)
Definition methods_self (self : t) (pre : Preprocessing.t)
  (gm : FullGmSegmentation.GMseg) : FullGmSegmentation.t :=
  {| FullGmSegmentation.param := param self;
     FullGmSegmentation.target_fname := target_fname self;
     FullGmSegmentation.sc_seg_fname := sc_seg_fname self;
     FullGmSegmentation.ref_gm_seg_fname :=
       match ref_gm_seg_fname self with
       | Some ref => ref
       | None => ""
       end;
     FullGmSegmentation.preprocessed := pre;
     FullGmSegmentation.gm_seg := gm |}.

Section Segmentation.

(** [GMsegSupervisedMethod(treated_target, level_to_use, self.model,
    gm_seg_param=self.param)], of [msct_multiatlas_seg]: the segmentation
    itself, with the model the script only hands over. *)
Variable GMsegSupervisedMethod :
  string -> option string -> FullGmSegmentation.Param
  -> M FullGmSegmentation.GMseg.

(** Lines 144-170.  The messages of [sct.printv] are not events. *)
Definition segmentation_pipeline (self : t) : M outcome :=
  (* 146 *)
  pre <- Preprocessing.__init__ (target_fname self) (sc_seg_fname self)
           (tmp_dir self) (t2_data self) (level_fname self)
           (target_denoising self) ;;
  (* 148 *)
  chdir 148 (tmp_dir self) ;;
  (* 150-153 *)
  let level_to_use :=
    match Preprocessing.level_fname pre with
    | Some l => Some l
    | None => None
    end in
  (* 156 *)
  gm <- GMsegSupervisedMethod (Preprocessing.treated_target pre) level_to_use
          (param self) ;;
  (* 158-165 *)
  names <-
    match ref_gm_seg_fname self with
    | Some ref =>
        chdir 159 ".." ;;
        '(_, ref_name, _) <- extract_fname ref ;;
        '(_, _, ref_ext) <- extract_fname ref ;;
        run 160 ("cp " ++ ref ++ " " ++ tmp_dir self ++ "/"
                   ++ ref_name ++ ref_ext) ;;
        '(_, sc_name, _) <- extract_fname (sc_seg_fname self) ;;
        '(_, _, sc_ext) <- extract_fname (sc_seg_fname self) ;;
        run 161 ("cp " ++ sc_seg_fname self ++ " " ++ tmp_dir self ++ "/"
                   ++ sc_name ++ sc_ext) ;;
        chdir 162 (tmp_dir self) ;;
        v <- FullGmSegmentation.validation (methods_self self pre gm) ;;
        ret (Some v)
    | None => ret None
    end ;;
  (* 168 *)
  res <- FullGmSegmentation.post_processing (methods_self self pre gm) ;;
  (* 170 *)
  chdir 170 ".." ;;
  ret {| preprocessed := pre; level_to_use := level_to_use; gm_seg := gm;
         names := names; res_names := res |}.

End Segmentation.

End Pipeline.

(** ** The command line (lines 354-500) *)

Module Main.

(** The values found in [arguments] and in the fields of
    [SegmentationParam]. *)
Inductive value : Type :=
| Str (s : string)
| Int (z : Z)
| Float (q : Q)
| Bool (b : bool)
| StrList (l : list string)
| FloatList (l : list Q)
| NoneValue.

(** [arguments]: a dictionary, the first binding of a key being the one
    that counts. *)
Definition dict : Type := list (string * value).

(** [k in d], with the value. *)
Definition get (k : string) (d : dict) : option value :=
  match find (fun kv => fst kv =? k) d with
  | Some kv => Some (snd kv)
  | None => None
  end.

(** [d[k]] *)
Definition getitem (k : string) (d : dict) : result value :=
  match get k d with
  | Some v => Ok v
  | None => Raise (KeyError k)
  end.

(** The fields of [SegmentationParam] that the script reads or writes;
    [debug] is the truth value of [param.debug]. *)
Record SegmentationParam : Type := {
  debug : bool;
  path_model : value;
  todo_model : value;
  output_name : value;
  use_levels : value;
  weight_gamma : value;
  target_denoising : value;
  target_normalization : value;
  target_means : value;
  res_type : value;
  verbose : value
}.

(** The variables the block leaves behind. *)
Record inputs : Type := {
  param : SegmentationParam;
  input_target_fname : value;
  input_sc_seg_fname : value;
  input_t2_data : value;
  input_level_fname : value;
  input_ref_gm_seg : value;
  compute_ratio : bool
}.

Definition bindr {A B} (r : result A) (k : A -> result B) : result B :=
  match r with
  | Ok a => k a
  | Raise e => Raise e
  end.

(** [v + s] for a string [s]: the concatenation when [v] is a string, a
    [TypeError] otherwise. *)
Definition add_str (v : value) (s : string) : result value :=
  match v with
  | Str a => Ok (Str (a ++ s))
  | _ => Raise TypeError
  end.

Definition is_None (v : value) : bool :=
  match v with
  | NoneValue => true
  | _ => false
  end.

(** [bool(n)] for an integer. *)
Definition bool_of_int (z : Z) : bool := negb (z =? 0)%Z.

(** The keys the block looks for in [arguments]. *)
Definition keys_read : list string :=
  ["-i"; "-s"; "-model"; "-o"; "-t2"; "-l"; "-use-levels"; "-weight";
   "-denoising"; "-normalize"; "-means"; "-ratio"; "-res-type"; "-ref"; "-v"].

Section Block.

(** Python's [int]. *)
Variable int : value -> result Z.

(** [if k in arguments: x = f(arguments[k])] *)
Definition if_in {A} (k : string) (arguments : dict)
  (f : value -> result A) (x : A) : result A :=
  match get k arguments with
  | Some v => f v
  | None => Ok x
  end.

Definition flag (v : value) : result value :=
  bindr (int v) (fun z => Ok (Bool (bool_of_int z))).

(** Lines 355-500, [arguments] being what [parser.parse] returned. *)
Definition main (p : SegmentationParam) (arguments : dict) : result inputs :=
  if debug p then
    (* 362-365; [fname_input] is not read again *)
    bindr (add_str (path_model p) "/errsm_34.nii.gz") (fun fname_input =>
    bindr (add_str (path_model p) "/errsm_34_seg_in.nii.gz") (fun fname_input =>
    Ok {| param := p;
          input_target_fname := NoneValue; input_sc_seg_fname := NoneValue;
          input_t2_data := NoneValue; input_level_fname := NoneValue;
          input_ref_gm_seg := NoneValue; compute_ratio := false |}))
  else
    (* 465-466 *)
    bindr (getitem "-i" arguments) (fun input_target_fname =>
    bindr (getitem "-s" arguments) (fun input_sc_seg_fname =>
    (* 467-469 *)
    bindr (if_in "-model" arguments Ok (path_model p)) (fun path_model' =>
    let todo_model' := Str "load" in
    (* 471-476 *)
    bindr (if_in "-o" arguments Ok (output_name p)) (fun output_name' =>
    bindr (if_in "-t2" arguments Ok NoneValue) (fun input_t2_data =>
    bindr (if_in "-l" arguments Ok NoneValue) (fun input_level_fname =>
    (* 477-486 *)
    bindr (if_in "-use-levels" arguments flag (use_levels p)) (fun use_levels' =>
    bindr (if_in "-weight" arguments Ok (weight_gamma p)) (fun weight_gamma' =>
    bindr (if_in "-denoising" arguments flag (target_denoising p))
          (fun target_denoising' =>
    bindr (if_in "-normalize" arguments flag (target_normalization p))
          (fun target_normalization' =>
    bindr (if_in "-means" arguments Ok (target_means p)) (fun target_means' =>
    (* 488-495 *)
    bindr (if_in "-ratio" arguments (fun _ => Ok true) false)
          (fun compute_ratio =>
    bindr (if_in "-res-type" arguments Ok (res_type p)) (fun res_type' =>
    bindr (if_in "-ref" arguments Ok NoneValue) (fun input_ref_gm_seg =>
    bindr (if_in "-v" arguments Ok (verbose p)) (fun verbose' =>
    (* 497-499 *)
    let no_level := is_None input_level_fname && is_None input_t2_data in
    let use_levels' := if no_level then Bool false else use_levels' in
    let weight_gamma' := if no_level then Int 0 else weight_gamma' in
    Ok {| param :=
            {| debug := debug p; path_model := path_model';
               todo_model := todo_model'; output_name := output_name';
               use_levels := use_levels'; weight_gamma := weight_gamma';
               target_denoising := target_denoising';
               target_normalization := target_normalization';
               target_means := target_means'; res_type := res_type';
               verbose := verbose' |};
          input_target_fname := input_target_fname;
          input_sc_seg_fname := input_sc_seg_fname;
          input_t2_data := input_t2_data;
          input_level_fname := input_level_fname;
          input_ref_gm_seg := input_ref_gm_seg;
          compute_ratio := compute_ratio |}))))))))))))))).

End Block.

End Main.

(** ** More worlds and subjects for running examples *)

(** The calm world, where [check_file_to_niigz] finds no file. *)
Definition world_without_file (out : string) (px py : Q) : world :=
  let w := calm_world out px py in
  {| w_run := w_run w;
     w_check_file_to_niigz := fun _ _ => None;
     w_extract_fname := w_extract_fname w;
     w_get_dimension := w_get_dimension w;
     w_resample_image := w_resample_image w;
     w_load := w_load w;
     w_denoise_ornlm := w_denoise_ornlm w;
     w_crop_t2_star := w_crop_t2_star w;
     w_compute_level_file := w_compute_level_file w;
     w_inverse_square_crop := w_inverse_square_crop w;
     w_inverse_gmseg_to_wmseg := w_inverse_gmseg_to_wmseg w;
     w_change_orientation := w_change_orientation w;
     w_crop_from_square_mask := w_crop_from_square_mask w;
     w_readlines := w_readlines w |}.

(** The world [w], where the two files of areas hold the lines [gm_lines]
    and [wm_lines]. *)
Definition world_reading (gm_lines wm_lines : list string) (w : world)
  : world :=
  {| w_run := w_run w;
     w_check_file_to_niigz := w_check_file_to_niigz w;
     w_extract_fname := w_extract_fname w;
     w_get_dimension := w_get_dimension w;
     w_resample_image := w_resample_image w;
     w_load := w_load w;
     w_denoise_ornlm := w_denoise_ornlm w;
     w_crop_t2_star := w_crop_t2_star w;
     w_compute_level_file := w_compute_level_file w;
     w_inverse_square_crop := w_inverse_square_crop w;
     w_inverse_gmseg_to_wmseg := w_inverse_gmseg_to_wmseg w;
     w_change_orientation := w_change_orientation w;
     w_crop_from_square_mask := w_crop_from_square_mask w;
     w_readlines :=
       fun _ f => if f =? "gm_csa.txt" then gm_lines
                  else if f =? "wm_csa.txt" then wm_lines
                  else [] |}.

(** A segmentation method that answers the results of [small_subject]. *)
Definition small_method (_ : string) (_ : option string)
  (p : FullGmSegmentation.Param) : M FullGmSegmentation.GMseg :=
  ret (FullGmSegmentation.gm_seg
         (small_subject (FullGmSegmentation.res_type p))).

Definition small_pipeline (res_type : string) (ref : option string)
  : Pipeline.t :=
  {| Pipeline.param :=
       {| FullGmSegmentation.res_type := res_type;
          FullGmSegmentation.verbose := 0 |};
     Pipeline.target_denoising := false;
     Pipeline.target_fname := "t2star.nii.gz";
     Pipeline.sc_seg_fname := "t2star_seg.nii.gz";
     Pipeline.t2_data := None;
     Pipeline.level_fname := None;
     Pipeline.ref_gm_seg_fname := ref;
     Pipeline.tmp_dir := "tmp_t2star" |}.

(** [int] on the values the parser gives for a choice between '0' and
    '1'. *)
Definition small_int (v : Main.value) : result Z :=
  match v with
  | Main.Str "0" => Ok 0%Z
  | Main.Str "1" => Ok 1%Z
  | Main.Int z => Ok z
  | _ => Raise ValueError
  end.

(** The debug mode, with a model path that is not set. *)
Definition debug_param : Main.SegmentationParam :=
  {| Main.debug := true; Main.path_model := Main.NoneValue;
     Main.todo_model := Main.Str "load"; Main.output_name := Main.Str "";
     Main.use_levels := Main.Bool true; Main.weight_gamma := Main.Float (25 # 10);
     Main.target_denoising := Main.Bool true;
     Main.target_normalization := Main.Bool true;
     Main.target_means := Main.NoneValue; Main.res_type := Main.Str "prob";
     Main.verbose := Main.Int 1 |}.

Definition default_param : Main.SegmentationParam :=
  {| Main.debug := false; Main.path_model := Main.Str "gm_model";
     Main.todo_model := Main.Str "load"; Main.output_name := Main.Str "";
     Main.use_levels := Main.Bool true; Main.weight_gamma := Main.Float (25 # 10);
     Main.target_denoising := Main.Bool true;
     Main.target_normalization := Main.Bool true;
     Main.target_means := Main.NoneValue; Main.res_type := Main.Str "prob";
     Main.verbose := Main.Int 1 |}.

(** * Properties *)

(** ** The monad *)

Lemma bind_ok {A B} (m : M A) (k : A -> M B) w h h' a :
  m w h = (h', Ok a) -> bind m k w h = k a w h'.
Proof. unfold bind. intros ->. reflexivity. Qed.

Lemma bind_raise {A B} (m : M A) (k : A -> M B) w h h' e :
  m w h = (h', Raise e) -> bind m k w h = (h', Raise e).
Proof. unfold bind. intros ->. reflexivity. Qed.

(** ** RatioComputation *)
Section RatioFacts.
Context {F : Type} `{PyFloat F}.
Import FullGmSegmentation.

Lemma ratio_line_ok gm_line wm_line i a b g x w h :
  split "," gm_line = [i; a] -> split "," wm_line = [i; b] ->
  float a = Some g -> float b = Some x -> is_zero x = false ->
  ratio_line gm_line wm_line w h = (h, Ok (i ++ "," ++ str (fdiv g x) ++ nl)).
Proof.
  intros Hg Hw Ha Hb Hz.
  unfold ratio_line, bind, lift, py_float, truediv.
  rewrite Hg, Hw. cbn. rewrite String.eqb_refl. cbn.
  rewrite Ha, Hb. cbn. rewrite Hz. reflexivity.
Qed.

Lemma ratio_line_mismatch gm_line wm_line i j a b w h :
  split "," gm_line = [i; a] -> split "," wm_line = [j; b] -> i <> j ->
  ratio_line gm_line wm_line w h = (h, Raise AssertionError).
Proof.
  intros Hg Hw Hij.
  unfold ratio_line, bind, lift.
  rewrite Hg, Hw. cbn.
  apply String.eqb_neq in Hij. rewrite Hij. reflexivity.
Qed.

Lemma ratio_line_zero gm_line wm_line i a b g x w h :
  split "," gm_line = [i; a] -> split "," wm_line = [i; b] ->
  float a = Some g -> float b = Some x -> is_zero x = true ->
  ratio_line gm_line wm_line w h = (h, Raise ZeroDivisionError).
Proof.
  intros Hg Hw Ha Hb Hz.
  unfold ratio_line, bind, lift, py_float, truediv.
  rewrite Hg, Hw. cbn. rewrite String.eqb_refl. cbn.
  rewrite Ha, Hb. cbn. rewrite Hz. reflexivity.
Qed.

(** The loop over a concatenation runs the first part, then the second
    from where the first stopped. *)
Lemma ratio_loop_app p1 p2 w h :
  ratio_loop (p1 ++ p2) w h =
  match ratio_loop p1 w h with
  | (h', Ok _) => ratio_loop p2 w h'
  | r => r
  end.
Proof.
  revert h. induction p1 as [|[g l] p1 IH]; intros h; [reflexivity|].
  cbn [ratio_loop app]. unfold bind at 1 3.
  destruct (ratio_line g l w h) as [h1 [text|e]]; [|reflexivity].
  unfold bind at 1 2. cbn. apply IH.
Qed.

Lemma ratio_loop_aligned gm_lines wm_lines gm wm w h :
  Forall2 reads_as gm_lines gm -> Forall2 reads_as wm_lines wm ->
  aligned gm wm ->
  ratio_loop (combine gm_lines wm_lines) w h
  = ((h ++ ratio_records gm wm)%list, Ok tt).
Proof.
  intros Hg. revert wm_lines wm h.
  induction Hg as [|gl [i g] gls gs [a [Ha Hfa]] Hg IH]; intros wm_lines wm h Hw Hal.
  - cbn. unfold ratio_records. cbn. rewrite app_nil_r. reflexivity.
  - destruct Hw as [|wl [j x] wls ws [b [Hb Hfb]] Hw].
    + cbn. unfold ratio_records. cbn. rewrite app_nil_r. reflexivity.
    + unfold aligned in Hal. cbn [combine] in Hal.
      apply Forall_cons_iff in Hal. destruct Hal as [[Hij Hz] Hal].
      cbn in Hij, Hz, Ha, Hb, Hfa, Hfb. subst j.
      cbn [combine ratio_loop].
      rewrite (bind_ok _ _ _ _ _ _ (ratio_line_ok _ _ _ _ _ _ _ w h Ha Hb Hfa Hfb Hz)).
      unfold bind at 1, ask at 1.
      rewrite (IH wls ws _ Hw Hal).
      unfold ratio_records. cbn [combine map fst snd].
      rewrite <- app_assoc. reflexivity.
Qed.

End RatioFacts.

Lemma combine_app_same {A B} (l1 l2 : list A) (m1 m2 : list B) :
  length l1 = length m1 ->
  combine (l1 ++ l2) (m1 ++ m2) = (combine l1 m1 ++ combine l2 m2)%list.
Proof.
  revert m1. induction l1 as [|x l1 IH]; intros [|y m1] Hlen;
    cbn in *; try discriminate; [reflexivity|].
  f_equal. apply IH. congruence.
Qed.

Lemma combine_firstn_min {A B} (l : list A) (m : list B) :
  combine l m
  = combine (firstn (Nat.min (length l) (length m)) l)
            (firstn (Nat.min (length l) (length m)) m).
Proof.
  revert m. induction l as [|x l IH]; intros [|y m]; cbn; try reflexivity.
  f_equal. apply IH.
Qed.

Lemma Forall2_length_eq {A B} (R : A -> B -> Prop) l m :
  Forall2 R l m -> length l = length m.
Proof. induction 1; cbn; congruence. Qed.

(** C6.  RatioComputation pairs the two sequences of (index, area) records
    by position.  When the indices agree at every shared position (and the
    quotient exists there), it writes one record (index, gray area / white
    area) per pair and ends normally.  When, after such pairs, two indices
    differ, it raises the assertion error and writes no record for that
    position nor for any later one. *)
Theorem compute_ratio_pairs_by_position {F} `{PyFloat F} :
  (forall gm_lines wm_lines gm wm w h,
      Forall2 FullGmSegmentation.reads_as gm_lines gm ->
      Forall2 FullGmSegmentation.reads_as wm_lines wm ->
      FullGmSegmentation.aligned gm wm ->
      FullGmSegmentation.ratio_loop (combine gm_lines wm_lines) w h
      = ((h ++ FullGmSegmentation.ratio_records gm wm)%list, Ok tt))
  /\
  (forall gm_lines wm_lines gm wm gm_line wm_line i j a b gm_rest wm_rest w h,
      Forall2 FullGmSegmentation.reads_as gm_lines gm ->
      Forall2 FullGmSegmentation.reads_as wm_lines wm ->
      length gm = length wm ->
      FullGmSegmentation.aligned gm wm ->
      split "," gm_line = [i; a] -> split "," wm_line = [j; b] -> i <> j ->
      FullGmSegmentation.ratio_loop
        (combine (gm_lines ++ gm_line :: gm_rest) (wm_lines ++ wm_line :: wm_rest))
        w h
      = ((h ++ FullGmSegmentation.ratio_records gm wm)%list, Raise AssertionError)).
Proof.
  split.
  - intros. now apply ratio_loop_aligned.
  - intros gm_lines wm_lines gm wm gl wl i j a b gr wr w h Hg Hw Hlen Hal Hgl Hwl Hij.
    rewrite combine_app_same.
    2:{ rewrite (Forall2_length_eq _ _ _ Hg), (Forall2_length_eq _ _ _ Hw). exact Hlen. }
    rewrite ratio_loop_app, (ratio_loop_aligned _ _ _ _ w h Hg Hw Hal).
    cbn [combine FullGmSegmentation.ratio_loop].
    apply bind_raise. eapply ratio_line_mismatch; eassumption.
Qed.

(** C6 on the examples of the specification: [(0,10),(1,20)] against
    [(0,5),(1,10)] gives the ratios 2.0 and 2.0; [(0,10)] against [(1,5)]
    fails on the assertion. *)
Lemma compute_ratio_pairs_by_position_witness :
  @FullGmSegmentation.ratio_loop Q QFloat.pyfloat
    (combine ["0,10" ++ nl; "1,20" ++ nl] ["0,5" ++ nl; "1,10" ++ nl])
    (calm_world "" 1 1) []
  = ([Write 223 "ratio.txt" ("0,2.0" ++ nl); Write 223 "ratio.txt" ("1,2.0" ++ nl)],
     Ok tt)
  /\
  @FullGmSegmentation.ratio_loop Q QFloat.pyfloat
    (combine ["0,10" ++ nl] ["1,5" ++ nl]) (calm_world "" 1 1) []
  = ([], Raise AssertionError).
Proof.
  split.
  - apply (proj1 (@compute_ratio_pairs_by_position Q QFloat.pyfloat)
                 ["0,10" ++ nl; "1,20" ++ nl] ["0,5" ++ nl; "1,10" ++ nl]
                 [("0", 10); ("1", 20)] [("0", 5); ("1", 10)]).
    + repeat constructor; eexists; split; reflexivity.
    + repeat constructor; eexists; split; reflexivity.
    + repeat constructor.
  - apply (proj2 (@compute_ratio_pairs_by_position Q QFloat.pyfloat)
                 [] [] [] [] ("0,10" ++ nl) ("1,5" ++ nl) "0" "1"
                 ("10" ++ nl) ("5" ++ nl) [] []).
    + constructor.
    + constructor.
    + reflexivity.
    + constructor.
    + reflexivity.
    + reflexivity.
    + discriminate.
Defined.

(** C7.  Nothing guards the denominator.  When, after pairs that went
    through, a pair has equal indices and a white-matter area that is zero,
    the division is still attempted: the loop ends there on
    [ZeroDivisionError], and no record, flagged or substituted, is written
    for that pair. *)
Theorem compute_ratio_zero_white_area {F} `{PyFloat F} :
  forall gm_lines wm_lines gm wm gm_line wm_line i a b g x gm_rest wm_rest w h,
    Forall2 FullGmSegmentation.reads_as gm_lines gm ->
    Forall2 FullGmSegmentation.reads_as wm_lines wm ->
    length gm = length wm ->
    FullGmSegmentation.aligned gm wm ->
    split "," gm_line = [i; a] -> split "," wm_line = [i; b] ->
    float a = Some g -> float b = Some x -> is_zero x = true ->
    FullGmSegmentation.ratio_loop
      (combine (gm_lines ++ gm_line :: gm_rest) (wm_lines ++ wm_line :: wm_rest))
      w h
    = ((h ++ FullGmSegmentation.ratio_records gm wm)%list, Raise ZeroDivisionError).
Proof.
  intros gm_lines wm_lines gm wm gl wl i a b g x gr wr w h
         Hg Hw Hlen Hal Hgl Hwl Ha Hb Hz.
  rewrite combine_app_same.
  2:{ rewrite (Forall2_length_eq _ _ _ Hg), (Forall2_length_eq _ _ _ Hw). exact Hlen. }
  rewrite ratio_loop_app, (ratio_loop_aligned _ _ _ _ w h Hg Hw Hal).
  cbn [combine FullGmSegmentation.ratio_loop].
  apply bind_raise. eapply ratio_line_zero; eassumption.
Qed.

(** C7 at gray-matter areas [(0,10),(1,20)] and white-matter areas
    [(0,5),(1,0)]: the first record is written, the second pair raises. *)
Lemma compute_ratio_zero_white_area_witness :
  @FullGmSegmentation.ratio_loop Q QFloat.pyfloat
    (combine ["0,10" ++ nl; "1,20" ++ nl] ["0,5" ++ nl; "1,0" ++ nl])
    (calm_world "" 1 1) []
  = ([Write 223 "ratio.txt" ("0,2.0" ++ nl)], Raise ZeroDivisionError).
Proof.
  apply (@compute_ratio_zero_white_area Q QFloat.pyfloat
           ["0,10" ++ nl] ["0,5" ++ nl] [("0", 10)] [("0", 5)]
           ("1,20" ++ nl) ("1,0" ++ nl) "1" ("20" ++ nl) ("0" ++ nl) 20 0 [] []).
  - repeat constructor; eexists; split; reflexivity.
  - repeat constructor; eexists; split; reflexivity.
  - reflexivity.
  - repeat constructor.
  - reflexivity.
  - reflexivity.
  - reflexivity.
  - reflexivity.
  - reflexivity.
Defined.

(** ** Crop and inverse crop *)
Section CropFacts.
Import Geometry.

Lemma length_window {A} start len (l : list A) :
  (start + len <= length l)%nat -> length (window start len l) = len.
Proof.
  intros Hl. unfold window. rewrite length_firstn, length_skipn. lia.
Qed.

Lemma nth_window {A} start len (l : list A) i d :
  (i < len)%nat -> nth i (window start len l) d = nth (start + i) l d.
Proof.
  intros Hi. unfold window.
  rewrite nth_firstn.
  destruct (Nat.ltb_spec i len); [|lia].
  apply nth_skipn.
Qed.

Lemma length_pad {A} (z : A) before after l :
  length (pad z before after l) = (before + length l + after)%nat.
Proof. unfold pad. rewrite !length_app, !repeat_length. lia. Qed.

Lemma Forall_window {A} (P : A -> Prop) start len l :
  Forall P l -> Forall P (window start len l).
Proof.
  intros Hl. apply Forall_forall. intros x Hx. unfold window in Hx.
  apply In_nth with (d := x) in Hx. destruct Hx as [i [Hi <-]].
  rewrite length_firstn in Hi.
  rewrite nth_firstn. destruct (Nat.ltb_spec i len); [|lia].
  rewrite nth_skipn. rewrite length_skipn in Hi.
  eapply Forall_forall; [exact Hl|]. apply nth_In. lia.
Qed.

Lemma nth_pad {A} (z : A) before after l i :
  nth i (pad z before after l) z
  = if (before <=? i)%nat && (i <? before + length l)%nat
    then nth (i - before) l z else z.
Proof.
  unfold pad.
  destruct (Nat.leb_spec before i) as [Hb|Hb]; cbn [andb].
  - rewrite app_nth2 by (rewrite repeat_length; lia).
    rewrite repeat_length.
    destruct (Nat.ltb_spec i (before + length l)) as [Hl|Hl].
    + now rewrite app_nth1 by lia.
    + rewrite app_nth2 by lia. apply nth_repeat.
  - rewrite app_nth1 by (rewrite repeat_length; lia).
    apply nth_repeat.
Qed.

Variable m : CropMask.
Hypothesis Hfits : fits m.

Let slice_extent := Geometry.slice_extent (full_rows m) (full_cols m).

Lemma crop_slice_rows s :
  slice_extent s -> length (crop_slice m s) = box m.
Proof.
  intros [Hr _]. unfold crop_slice. rewrite length_map.
  apply length_window. destruct Hfits. lia.
Qed.

Lemma crop_slice_cols s :
  slice_extent s -> Forall (fun r => length r = box m) (crop_slice m s).
Proof.
  intros [_ Hc]. unfold crop_slice.
  apply Forall_map. apply Forall_window.
  eapply Forall_impl; [|exact Hc].
  intros r Hr. apply length_window. destruct Hfits. cbn in *. lia.
Qed.

Lemma crop_slice_pixel s i j :
  (i < box m)%nat -> (j < box m)%nat ->
  pixel (crop_slice m s) i j = pixel s (row0 m + i) (col0 m + j).
Proof.
  intros Hi Hj. unfold pixel, crop_slice.
  rewrite <- (nth_window (row0 m) (box m) s i []) by exact Hi.
  set (rows := window (row0 m) (box m) s).
  destruct (Nat.lt_ge_cases i (length rows)) as [Hl|Hl].
  - rewrite (nth_indep _ [] (window (col0 m) (box m) [])) by (now rewrite length_map).
    rewrite map_nth. now apply nth_window.
  - rewrite !nth_overflow with (n := i); try (rewrite ?length_map; lia).
    now destruct (col0 m + j)%nat, j.
Qed.

Lemma inverse_crop_slice_rows c :
  length c = box m -> length (inverse_crop_slice m c) = full_rows m.
Proof.
  intros Hc. unfold inverse_crop_slice.
  rewrite length_pad, length_map. destruct Hfits. lia.
Qed.

Lemma inverse_crop_slice_cols c :
  Forall (fun r => length r = box m) c ->
  Forall (fun r => length r = full_cols m) (inverse_crop_slice m c).
Proof.
  intros Hc. unfold inverse_crop_slice, pad at 1.
  apply Forall_app; split.
  - apply Forall_forall. intros r Hr.
    apply repeat_spec in Hr. subst r. apply repeat_length.
  - apply Forall_app; split.
    + apply Forall_map. eapply Forall_impl; [|exact Hc].
      intros r Hr. cbn in Hr |- *. rewrite length_pad. destruct Hfits. lia.
    + apply Forall_forall. intros r Hr.
      apply repeat_spec in Hr. subst r. apply repeat_length.
Qed.

Lemma inverse_crop_slice_pixel c i j :
  length c = box m -> Forall (fun r => length r = box m) c ->
  pixel (inverse_crop_slice m c) i j
  = if in_mask m i j then pixel c (i - row0 m) (j - col0 m) else 0.
Proof.
  intros Hc Hcols. unfold pixel, inverse_crop_slice, in_mask.
  set (zrow := repeat 0 (full_cols m)).
  set (rows := map _ c).
  assert (Hz : forall k, nth k zrow 0 = 0) by (intros; apply nth_repeat).
  assert (Hrow : nth i (pad zrow (row0 m) (full_rows m - row0 m - box m) rows) []
                 = if (row0 m <=? i)%nat && (i <? row0 m + box m)%nat
                   then nth (i - row0 m) rows zrow
                   else if (i <? full_rows m)%nat then zrow else []).
  { destruct (Nat.ltb_spec i (full_rows m)) as [Hi|Hi].
    - rewrite (nth_indep _ [] zrow).
      2:{ rewrite length_pad. unfold rows. rewrite length_map.
          destruct Hfits. lia. }
      rewrite nth_pad. unfold rows at 1. rewrite length_map, Hc.
      now destruct (_ && _).
    - rewrite nth_overflow.
      2:{ rewrite length_pad. unfold rows. rewrite length_map.
          destruct Hfits. lia. }
      destruct Hfits.
      destruct (Nat.leb_spec (row0 m) i), (Nat.ltb_spec i (row0 m + box m));
        cbn [andb]; try reflexivity; lia. }
  rewrite Hrow.
  destruct ((row0 m <=? i)%nat && (i <? row0 m + box m)%nat) eqn:Hi; cbn [andb].
  - apply andb_true_iff in Hi. destruct Hi as [Hi1 Hi2].
    apply Nat.leb_le in Hi1. apply Nat.ltb_lt in Hi2.
    unfold rows.
    rewrite (nth_indep _ zrow (pad 0 (col0 m) (full_cols m - col0 m - box m) []))
      by (rewrite length_map; lia).
    rewrite map_nth, nth_pad.
    assert (Hlen : length (nth (i - row0 m) c []) = box m).
    { eapply Forall_forall with (x := nth (i - row0 m) c []) in Hcols; [exact Hcols|].
      apply nth_In. lia. }
    rewrite Hlen. now destruct (_ && _).
  - destruct (i <? full_rows m)%nat; [apply Hz|now destruct j].
Qed.

End CropFacts.

Lemma nth_map_in {A B} (f : A -> B) (l : list A) k da db :
  (k < length l)%nat -> nth k (map f l) db = f (nth k l da).
Proof.
  intros Hk. rewrite (nth_indep _ db (f da)) by (now rewrite length_map).
  apply map_nth.
Qed.

(** C1.  For a mask whose box lies within the extent of the volume,
    un-cropping the cropped volume gives back a volume of the full
    pre-crop extent; every voxel outside the mask is zero, and every voxel
    inside the mask is the corresponding voxel of the crop (which is the
    voxel the volume had there). *)
Theorem inverse_square_crop_of_crop :
  forall (v : volume) (m : Geometry.CropMask),
    Geometry.fits m ->
    Geometry.has_extent v (Geometry.full_rows m) (Geometry.full_cols m) ->
    let c := Geometry.crop_from_square_mask v m in
    let r := Geometry.inverse_square_crop c m in
    length r = length v
    /\ Geometry.has_extent r (Geometry.full_rows m) (Geometry.full_cols m)
    /\ forall k i j,
        (k < length v)%nat ->
        (Geometry.in_mask m i j = false -> Geometry.voxel r k i j = 0)
        /\ (Geometry.in_mask m i j = true ->
            Geometry.voxel r k i j
            = Geometry.voxel c k (i - Geometry.row0 m) (j - Geometry.col0 m)
            /\ Geometry.voxel r k i j = Geometry.voxel v k i j).
Proof.
  intros v m Hfits Hext c r. subst c r.
  unfold Geometry.inverse_square_crop, Geometry.crop_from_square_mask.
  split; [now rewrite !length_map|].
  split.
  - unfold Geometry.has_extent in *.
    apply Forall_map, Forall_map.
    eapply Forall_impl; [|exact Hext].
    intros s Hs. split.
    + apply inverse_crop_slice_rows; [exact Hfits|].
      now apply crop_slice_rows.
    + apply inverse_crop_slice_cols; [exact Hfits|].
      now apply crop_slice_cols.
  - intros k i j Hk. unfold Geometry.voxel.
    assert (Hs : Geometry.slice_extent (Geometry.full_rows m)
                   (Geometry.full_cols m) (nth k v [])).
    { eapply Forall_forall; [exact Hext|]. now apply nth_In. }
    rewrite (nth_map_in (Geometry.inverse_crop_slice m) _ k [] [])
      by (now rewrite length_map).
    rewrite (nth_map_in (Geometry.crop_slice m) _ k [] []) by exact Hk.
    rewrite inverse_crop_slice_pixel;
      [|exact Hfits|now apply crop_slice_rows|now apply crop_slice_cols].
    split; intros Hm; rewrite Hm; [reflexivity|].
    split; [reflexivity|].
    unfold Geometry.in_mask in Hm.
    apply andb_true_iff in Hm. destruct Hm as [Hm Hj2].
    apply andb_true_iff in Hm. destruct Hm as [Hm Hj1].
    apply andb_true_iff in Hm. destruct Hm as [Hi1 Hi2].
    apply Nat.leb_le in Hi1, Hj1. apply Nat.ltb_lt in Hi2, Hj2.
    rewrite crop_slice_pixel by lia.
    f_equal; lia.
Qed.

(** C1 on a volume of two 3x4 slices and a 2x2 box. *)
Lemma inverse_square_crop_of_crop_witness :
  let c := Geometry.crop_from_square_mask small_volume small_mask in
  let r := Geometry.inverse_square_crop c small_mask in
  length r = length small_volume
  /\ Geometry.has_extent r 3 4
  /\ forall k i j,
      (k < length small_volume)%nat ->
      (Geometry.in_mask small_mask i j = false -> Geometry.voxel r k i j = 0)
      /\ (Geometry.in_mask small_mask i j = true ->
          Geometry.voxel r k i j = Geometry.voxel c k (i - 1) (j - 1)
          /\ Geometry.voxel r k i j = Geometry.voxel small_volume k i j).
Proof.
  apply (inverse_square_crop_of_crop small_volume small_mask).
  - unfold Geometry.fits. cbn. lia.
  - repeat constructor.
Defined.

Example inverse_square_crop_small :
  Geometry.inverse_square_crop
    (Geometry.crop_from_square_mask small_volume small_mask) small_mask
  = [ [ [0; 0; 0; 0]; [0; 6; 7; 0]; [0; 10; 11; 0] ];
      [ [0; 0; 0; 0]; [0; 18; 19; 0]; [0; 22; 23; 0] ] ].
Proof. reflexivity. Qed.

(** ** Proof tools *)

Arguments Preprocessing.needs_resampling : simpl never.
Arguments String.append : simpl never.
Arguments never_at : simpl never.
Arguments events_at : simpl never.
Arguments fails_outside : simpl never.
Arguments among : simpl never.
Arguments FullGmSegmentation.binarize_for_validation : simpl never.
Arguments str_int : simpl never.

Create HintDb py.
#[local] Hint Unfold bind ret raise ask lift run run_with chdir
  check_file_to_niigz get_dimension resample_image load save extract_fname
  index try_except : py.

(** Symbolic execution: case analysis on the answer that the next
    external call, or the next test, is waiting for. *)
Ltac stuck x :=
  lazymatch x with
  | context [match ?y with _ => _ end] => stuck y
  | _ => destruct x eqn:?
  end.

Ltac step :=
  match goal with
  | |- context [match ?x with _ => _ end] => stuck x
  end; cbn.

Ltac in_trace H :=
  cbn in H;
  repeat (destruct H as [H|H]; [try discriminate H|]);
  try contradiction.

(** ** Runs, by their structure *)
Section Compositional.
Context {A B : Type}.

Lemma preserves_ret P (a : A) : preserves P (ret a).
Proof. intros w h Hh. exact Hh. Qed.

Lemma preserves_raise P e : preserves P (@raise A e).
Proof. intros w h Hh. exact Hh. Qed.

Lemma preserves_lift P (r : result A) : preserves P (lift r).
Proof. intros w h Hh. exact Hh. Qed.

Lemma preserves_bind P (m : M A) (k : A -> M B) :
  preserves P m -> (forall a, preserves P (k a)) -> preserves P (bind m k).
Proof.
  intros Hm Hk w h Hh. unfold bind.
  specialize (Hm w h Hh). destruct (m w h) as [h1 [a|e]]; cbn in *.
  - now apply Hk.
  - exact Hm.
Qed.

Lemma preserves_try P (body handler : M A) :
  preserves P body -> preserves P handler ->
  preserves P (try_except body handler).
Proof.
  intros Hb Hh w h H0. unfold try_except.
  specialize (Hb w h H0). destruct (body w h) as [h1 [a|e]]; cbn in *.
  - exact Hb.
  - destruct (is_Exception e); [now apply Hh|exact Hb].
Qed.

Lemma preserves_ask (P : event -> Prop) e (f : world -> list event -> A) :
  P e -> preserves P (ask e f).
Proof.
  intros He w h Hh. unfold ask. cbn.
  apply Forall_app. split; [exact Hh|now constructor].
Qed.

Lemma aborts_ret ok (a : A) : aborts_on_failure ok (ret a).
Proof. intros w h H0 H1. cbv [ret raise lift extract_fname fst] in H1. congruence. Qed.

Lemma aborts_raise ok e : aborts_on_failure ok (@raise A e).
Proof. intros w h H0 H1. cbv [ret raise lift extract_fname fst] in H1. congruence. Qed.

Lemma aborts_lift ok (r : result A) : aborts_on_failure ok (lift r).
Proof. intros w h H0 H1. cbv [ret raise lift extract_fname fst] in H1. congruence. Qed.

Lemma aborts_bind ok (m : M A) (k : A -> M B) :
  aborts_on_failure ok m -> (forall a, aborts_on_failure ok (k a)) ->
  aborts_on_failure ok (bind m k).
Proof.
  intros Hm Hk w h H0. unfold bind.
  specialize (Hm w h H0). destruct (m w h) as [h1 [a|e]]; cbn in *.
  - destruct (fails_outside ok h1) eqn:F1.
    + discriminate (Hm eq_refl).
    + now apply Hk.
  - intros F1. specialize (Hm F1). congruence.
Qed.

Lemma aborts_try ok (body handler : M A) :
  aborts_on_failure ok body -> aborts_on_failure ok handler ->
  aborts_on_failure ok (try_except body handler).
Proof.
  intros Hb Hh w h H0. unfold try_except.
  specialize (Hb w h H0). destruct (body w h) as [h1 [a|e]]; cbn in *.
  - exact Hb.
  - destruct (is_Exception e) eqn:Ex; [|exact Hb].
    destruct (fails_outside ok h1) eqn:F1.
    + injection (Hb eq_refl) as ->. discriminate Ex.
    + now apply Hh.
Qed.

Lemma fails_outside_snoc ok h e :
  fails_outside ok (h ++ [e])
  = fails_outside ok h || (failed e && negb (among ok e)).
Proof.
  unfold fails_outside. rewrite existsb_app. cbn. now rewrite orb_false_r.
Qed.

Lemma aborts_ask ok e (f : world -> list event -> A) :
  failed e = false -> aborts_on_failure ok (ask e f).
Proof.
  intros He w h H0 H1. cbv [ask fst] in H1.
  rewrite fails_outside_snoc, H0, He in H1. discriminate H1.
Qed.

End Compositional.

Lemma preserves_run_with (P : event -> Prop) line cmd ee re :
  (forall st out, P (Run line cmd st out)) ->
  preserves P (run_with line cmd ee re).
Proof.
  intros He w h Hh. unfold run_with.
  destruct (w_run w (length h) cmd) as [st out].
  assert (Forall P (h ++ [Run line cmd st out])).
  { apply Forall_app. split; [exact Hh|]. constructor; [apply He|constructor]. }
  destruct (st =? 0)%Z; [exact H|]. now destruct re.
Qed.

Lemma preserves_get_dimension (P : event -> Prop) line f :
  (forall px py, P (GetDimension line f px py)) ->
  preserves P (get_dimension line f).
Proof.
  intros He w h Hh. unfold get_dimension.
  destruct (w_get_dimension w (length h) f) as [px py]. cbn.
  apply Forall_app. split; [exact Hh|]. constructor; [apply He|constructor].
Qed.

Lemma preserves_extract_fname (P : event -> Prop) f :
  preserves P (extract_fname f).
Proof. intros w h Hh. exact Hh. Qed.

(** A command run without [raise_exception] ends the run when it fails. *)
Lemma aborts_run_with ok line cmd ee :
  aborts_on_failure ok (run_with line cmd ee false).
Proof.
  intros w h H0. unfold run_with.
  destruct (w_run w (length h) cmd) as [st out].
  destruct (st =? 0)%Z eqn:St; cbn; [|reflexivity].
  rewrite fails_outside_snoc, H0. cbn. rewrite St. discriminate.
Qed.

(** With [raise_exception] it does not, and has to be one of the lines
    that are allowed to fail. *)
Lemma aborts_run_raising ok line cmd ee :
  existsb (Nat.eqb line) ok = true ->
  aborts_on_failure ok (run_with line cmd ee true).
Proof.
  intros Hl w h H0. unfold run_with.
  destruct (w_run w (length h) cmd) as [st out].
  assert (F : fails_outside ok (h ++ [Run line cmd st out]) = false).
  { rewrite fails_outside_snoc, H0. unfold among. cbn. rewrite Hl.
    now rewrite andb_false_r. }
  destruct (st =? 0)%Z; cbn; rewrite F; discriminate.
Qed.

Lemma aborts_get_dimension ok line f :
  aborts_on_failure ok (get_dimension line f).
Proof.
  intros w h H0. unfold get_dimension.
  destruct (w_get_dimension w (length h) f) as [px py]. cbn.
  rewrite fails_outside_snoc, H0. discriminate.
Qed.

Lemma aborts_extract_fname ok f : aborts_on_failure ok (extract_fname f).
Proof. intros w h H0 H1. cbv [ret raise lift extract_fname fst] in H1. congruence. Qed.

(** ** The validation *)

Create HintDb calls.
#[local] Hint Unfold run chdir check_file_to_niigz resample_image load save
  index FullGmSegmentation.dice FullGmSegmentation.change_orientation
  FullGmSegmentation.crop_from_square_mask FullGmSegmentation.write : calls.

Ltac aborts_step :=
  lazymatch goal with
  | |- aborts_on_failure _ (bind _ _) => apply aborts_bind; [|intros]
  | |- aborts_on_failure _ (ret _) => apply aborts_ret
  | |- aborts_on_failure _ (raise _) => apply aborts_raise
  | |- aborts_on_failure _ (lift _) => apply aborts_lift
  | |- aborts_on_failure _ (extract_fname _) => apply aborts_extract_fname
  | |- aborts_on_failure _ (get_dimension _ _) => apply aborts_get_dimension
  | |- aborts_on_failure _ (run_with _ _ _ false) => apply aborts_run_with
  | |- aborts_on_failure _ (run_with _ _ _ true) =>
      apply aborts_run_raising; reflexivity
  | |- aborts_on_failure _ (ask _ _) => apply aborts_ask; reflexivity
  | |- aborts_on_failure _ (try_except _ _) => apply aborts_try
  | |- aborts_on_failure _ (match ?x with _ => _ end) => destruct x
  | |- aborts_on_failure _ (let _ := _ in _) => cbv zeta
  | |- aborts_on_failure _ _ => progress autounfold with calls
  end.

Ltac aborts_structure := repeat aborts_step.

Lemma validation_aborts_on_failure self :
  aborts_on_failure [313; 321]%nat (FullGmSegmentation.validation self).
Proof.
  unfold FullGmSegmentation.validation.
  aborts_structure.
Qed.

Section Dice.
Import FullGmSegmentation.
Variables (w : world) (h : list event) (l : nat) (ref res ext : string).

Lemma dice_direct out :
  w_run w (length h) (dice_cmd (ref ++ ext) (res ++ ext)) = (0%Z, out) ->
  dice l ref res ext w h
  = ((h ++ [Run (l + 1) (dice_cmd (ref ++ ext) (res ++ ext)) 0 out])%list,
     Ok (0%Z, out)).
Proof.
  intros Hd. unfold dice, try_except, run_with.
  rewrite Hd. reflexivity.
Qed.

Lemma dice_fallback st out o1 o2 o3 st4 o4 :
  w_run w (length h) (dice_cmd (ref ++ ext) (res ++ ext)) = (st, out) ->
  st <> 0%Z ->
  (forall t, w_run w t (registration_cmd ref res ext) = (0%Z, o1)) ->
  (forall t, w_run w t (threshold_cmd ref ext) = (0%Z, o2)) ->
  (forall t, w_run w t (binarize_cmd ref ext) = (0%Z, o3)) ->
  (forall t, w_run w t (dice_cmd (ref ++ "_in_res_space" ++ ext) (res ++ ext))
             = (st4, o4)) ->
  dice l ref res ext w h
  = ((h ++ [Run (l + 1) (dice_cmd (ref ++ ext) (res ++ ext)) st out;
            Run (l + 4) (registration_cmd ref res ext) 0 o1;
            Run (l + 5) (threshold_cmd ref ext) 0 o2;
            Run (l + 6) (binarize_cmd ref ext) 0 o3;
            Run (l + 7)
                (dice_cmd (ref ++ "_in_res_space" ++ ext) (res ++ ext))
                st4 o4])%list,
     if (st4 =? 0)%Z then Ok (st4, o4) else Raise SystemExit).
Proof.
  intros Hd Hst H1 H2 H3 H4.
  unfold dice, try_except, run, run_with, bind.
  rewrite Hd. apply Z.eqb_neq in Hst. rewrite Hst. cbn [is_Exception].
  rewrite H1. cbn [Z.eqb]. rewrite H2. cbn [Z.eqb].
  rewrite H3. cbn [Z.eqb]. rewrite H4.
  rewrite <- !app_assoc. cbn [app].
  now destruct (st4 =? 0)%Z.
Qed.

End Dice.

(** C4.  The overlap step of the validation.  (1) When the direct call
    succeeds nothing else is run.  (2) When it fails, the reference is
    registered onto the result (translation, no iteration), thresholded at
    0.1 and binarised, and the overlap is computed again, once: its answer
    is the result, and its failure ends the run.  (3) In the whole
    validation, a failing command that is not one of the two direct
    overlap calls (lines 313 and 321) ends the run. *)
Theorem validation_overlap_fallback :
  (forall w h l ref res ext out,
      w_run w (length h)
            (FullGmSegmentation.dice_cmd (ref ++ ext) (res ++ ext)) = (0%Z, out) ->
      FullGmSegmentation.dice l ref res ext w h
      = ((h ++ [Run (l + 1)
                    (FullGmSegmentation.dice_cmd (ref ++ ext) (res ++ ext))
                    0 out])%list,
         Ok (0%Z, out)))
  /\
  (forall w h l ref res ext st out o1 o2 o3 st4 o4,
      w_run w (length h)
            (FullGmSegmentation.dice_cmd (ref ++ ext) (res ++ ext)) = (st, out) ->
      st <> 0%Z ->
      (forall t, w_run w t (FullGmSegmentation.registration_cmd ref res ext)
                 = (0%Z, o1)) ->
      (forall t, w_run w t (FullGmSegmentation.threshold_cmd ref ext) = (0%Z, o2)) ->
      (forall t, w_run w t (FullGmSegmentation.binarize_cmd ref ext) = (0%Z, o3)) ->
      (forall t, w_run w t
                   (FullGmSegmentation.dice_cmd
                      (ref ++ "_in_res_space" ++ ext) (res ++ ext))
                 = (st4, o4)) ->
      FullGmSegmentation.dice l ref res ext w h
      = ((h ++ [Run (l + 1)
                    (FullGmSegmentation.dice_cmd (ref ++ ext) (res ++ ext))
                    st out;
                Run (l + 4) (FullGmSegmentation.registration_cmd ref res ext) 0 o1;
                Run (l + 5) (FullGmSegmentation.threshold_cmd ref ext) 0 o2;
                Run (l + 6) (FullGmSegmentation.binarize_cmd ref ext) 0 o3;
                Run (l + 7)
                    (FullGmSegmentation.dice_cmd
                       (ref ++ "_in_res_space" ++ ext) (res ++ ext))
                    st4 o4])%list,
         if (st4 =? 0)%Z then Ok (st4, o4) else Raise SystemExit))
  /\
  (forall w self,
      fails_outside [313; 321]%nat
                    (fst (FullGmSegmentation.validation self w [])) = true ->
      snd (FullGmSegmentation.validation self w []) = Raise SystemExit).
Proof.
  split; [exact dice_direct|].
  split; [exact dice_fallback|].
  intros w self. now apply validation_aborts_on_failure.
Qed.

(** C4 in a world where the direct overlap call on the gray matter fails
    with status 1 and every other command succeeds: the four commands of
    the fallback follow, and the second overlap is the result. *)
Lemma validation_overlap_fallback_witness :
  let direct :=
    FullGmSegmentation.dice_cmd "ref_gm_seg.nii.gz" "res_gm_seg_bin_RPI.nii.gz" in
  FullGmSegmentation.dice 312 "ref_gm_seg" "res_gm_seg_bin_RPI" ".nii.gz"
    (world_failing direct "0.9" (1 # 2) (1 # 2)) []
  = ([Run 313 direct 1 "error";
      Run 316 (FullGmSegmentation.registration_cmd
                 "ref_gm_seg" "res_gm_seg_bin_RPI" ".nii.gz") 0 "0.9";
      Run 317 (FullGmSegmentation.threshold_cmd "ref_gm_seg" ".nii.gz") 0 "0.9";
      Run 318 (FullGmSegmentation.binarize_cmd "ref_gm_seg" ".nii.gz") 0 "0.9";
      Run 319 (FullGmSegmentation.dice_cmd
                 "ref_gm_seg_in_res_space.nii.gz" "res_gm_seg_bin_RPI.nii.gz")
          0 "0.9"],
     Ok (0%Z, "0.9")).
Proof.
  intros direct.
  apply (proj1 (proj2 validation_overlap_fallback)
               (world_failing direct "0.9" (1 # 2) (1 # 2)) []
               312%nat "ref_gm_seg" "res_gm_seg_bin_RPI" ".nii.gz"
               1%Z "error" "0.9" "0.9" "0.9" 0%Z "0.9").
  - reflexivity.
  - discriminate.
  - intros t. reflexivity.
  - intros t. reflexivity.
  - intros t. reflexivity.
  - intros t. reflexivity.
Defined.

(** The whole validation in that world: the failure of line 313 does not
    end the run, which delivers its two reports. *)
Example validation_survives_direct_overlap_failure :
  let direct :=
    FullGmSegmentation.dice_cmd "ref_gm_seg.nii.gz" "res_gm_seg_bin_RPI.nii.gz" in
  let r := FullGmSegmentation.validation (small_subject "prob")
             (world_failing direct "0.9" (1 # 2) (1 # 2)) [] in
  events_at [313; 316; 317; 318; 319; 321; 324]%nat (fst r)
  = [Run 313 direct 1 "error";
     Run 316 (FullGmSegmentation.registration_cmd
                "ref_gm_seg" "res_gm_seg_bin_RPI" ".nii.gz") 0 "0.9";
     Run 317 (FullGmSegmentation.threshold_cmd "ref_gm_seg" ".nii.gz") 0 "0.9";
     Run 318 (FullGmSegmentation.binarize_cmd "ref_gm_seg" ".nii.gz") 0 "0.9";
     Run 319 (FullGmSegmentation.dice_cmd
                "ref_gm_seg_in_res_space.nii.gz" "res_gm_seg_bin_RPI.nii.gz")
         0 "0.9";
     Run 321 (FullGmSegmentation.dice_cmd
                "ref_wm_seg.nii.gz" "res_wm_seg_bin_RPI.nii.gz") 0 "0.9"]
  /\ snd r = Ok ("dice_t2star_prob.txt", "hd_t2star_prob.txt").
Proof. vm_compute. split; reflexivity. Qed.

(** A failure of the second overlap call ends the run. *)
Example validation_ends_on_second_overlap_failure :
  snd (FullGmSegmentation.dice 312 "ref_gm_seg" "res_gm_seg_bin_RPI" ".nii.gz"
         (world_failing_all
            [FullGmSegmentation.dice_cmd
               "ref_gm_seg.nii.gz" "res_gm_seg_bin_RPI.nii.gz";
             FullGmSegmentation.dice_cmd
               "ref_gm_seg_in_res_space.nii.gz" "res_gm_seg_bin_RPI.nii.gz"]
            "0.9" (1 # 2) (1 # 2)) [])
  = Raise SystemExit.
Proof. reflexivity. Qed.

Ltac preserves_step :=
  lazymatch goal with
  | |- preserves _ (bind _ _) => apply preserves_bind; [|intros]
  | |- preserves _ (ret _) => apply preserves_ret
  | |- preserves _ (raise _) => apply preserves_raise
  | |- preserves _ (lift _) => apply preserves_lift
  | |- preserves _ (extract_fname _) => apply preserves_extract_fname
  | |- preserves _ (get_dimension _ _) => apply preserves_get_dimension; intros
  | |- preserves _ (run_with _ _ _ _) => apply preserves_run_with; intros
  | |- preserves _ (ask _ _) => apply preserves_ask
  | |- preserves _ (try_except _ _) => apply preserves_try
  | |- preserves _ (match ?x with _ => _ end) => destruct x eqn:?
  | |- preserves _ (let _ := _ in _) => cbv zeta
  | |- preserves _ _ => progress autounfold with calls
  end.

Lemma validation_saves_binarized self :
  let b := FullGmSegmentation.binarize_for_validation
             (FullGmSegmentation.res_type (FullGmSegmentation.param self))
             (FullGmSegmentation.res_gm_seg (FullGmSegmentation.gm_seg self))
             (FullGmSegmentation.res_wm_seg (FullGmSegmentation.gm_seg self)) in
  preserves (fun e => saves 281 (data (fst b)) e /\ saves 286 (data (snd b)) e)
            (FullGmSegmentation.validation self).
Proof.
  intros b. subst b. unfold FullGmSegmentation.validation.
  repeat preserves_step.
  all: split; try exact I.
  all: unfold saves; intros Hl; try discriminate Hl.
  all: reflexivity.
Qed.

Lemma ge_spec thr x :
  (thr <= x -> FullGmSegmentation.ge thr x = 1)
  /\ (x < thr -> FullGmSegmentation.ge thr x = 0).
Proof.
  unfold FullGmSegmentation.ge. split; intros Hx.
  - apply Qle_bool_iff in Hx. now rewrite Hx.
  - destruct (Qle_bool thr x) eqn:B; [|reflexivity].
    apply Qle_bool_iff in B. exfalso. apply (Qlt_not_le x thr); assumption.
Qed.

Lemma Forall_In_saves l d tr im :
  Forall (saves l d) tr -> In (Save l im) tr -> data im = d.
Proof.
  intros Hf Hin. rewrite Forall_forall in Hf.
  now apply (Hf _ Hin).
Qed.

Example validation_saves_small_subject :
  let saved rt :=
    map (fun e => match e with Save _ im => data im | _ => [] end)
        (events_at [281; 286]%nat
           (fst (FullGmSegmentation.validation (small_subject rt)
                   (calm_world "0.9" (1 # 2) (1 # 2)) []))) in
  saved "prob" = [ [[[1]]]; [[[0]]] ]
  /\ saved "binary" = [ [[[1 # 2]]]; [[[1 # 2]]] ].
Proof. vm_compute. split; reflexivity. Qed.

(** ** Thresholds and binary resampling *)

Lemma vmap_binary f v :
  (forall x, Geometry.binary_value (f x)) -> Geometry.is_binary (Geometry.vmap f v).
Proof.
  intros Hf. unfold Geometry.is_binary, Geometry.vmap.
  apply Forall_map, Forall_forall. intros s _.
  apply Forall_map, Forall_forall. intros r _.
  apply Forall_map, Forall_forall. intros x _. apply Hf.
Qed.


Lemma resample_row_Forall {A} (P : A -> Prop) d p np l :
  P d -> Forall P l -> Forall P (Geometry.resample_row d p np l).
Proof.
  intros Hd Hl. unfold Geometry.resample_row.
  apply Forall_map, Forall_forall. intros i _.
  destruct (nth_in_or_default (Geometry.nearest i p np) l d) as [Hin|Heq].
  - now apply (proj1 (Forall_forall P l) Hl).
  - rewrite Heq. exact Hd.
Qed.

Lemma resample_binary_preserves px py npx npy v :
  Geometry.is_binary v ->
  Geometry.is_binary (Geometry.resample_binary px py npx npy v).
Proof.
  unfold Geometry.is_binary, Geometry.resample_binary. intros Hv.
  apply Forall_map. eapply Forall_impl; [|exact Hv].
  intros s Hs. cbn.
  apply resample_row_Forall; [constructor|].
  apply Forall_map. eapply Forall_impl; [|exact Hs].
  intros r Hr. cbn.
  apply resample_row_Forall; [now left|exact Hr].
Qed.

(** ** Preprocessing *)
Lemma needs_resampling_spec px py t :
  Preprocessing.needs_resampling px py t = true
  <-> (~ round2 px == t \/ ~ round2 py == t).
Proof.
  unfold Preprocessing.needs_resampling.
  rewrite orb_true_iff, !negb_true_iff.
  split; intros [E|E]; [left|right|left|right].
  1,2: intros Eq; apply Qeq_bool_iff in Eq; congruence.
  1,2: destruct (Qeq_bool _ t) eqn:B; [apply Qeq_bool_iff in B; tauto|reflexivity].
Qed.

(** C9.  With both a level volume and T2 data, the level volume wins: the
    run is, event for event and result for result, the run without T2
    data; it never copies a T2 file (lines 50-52), never calls
    [compute_level_file] (line 83), and leaves the three T2 names at
    [None]. *)
Theorem level_volume_overrides_t2_data :
  forall w target_fname sc_seg_fname tmp_dir t2_data level_fname denoising,
    let r := Preprocessing.__init__ target_fname sc_seg_fname tmp_dir
               (Some t2_data) (Some level_fname) denoising w [] in
    r = Preprocessing.__init__ target_fname sc_seg_fname tmp_dir
          None (Some level_fname) denoising w []
    /\ never_at [50; 51; 52; 83]%nat (fst r) = true
    /\ (forall p, snd r = Ok p ->
                  Preprocessing.t2 p = None
                  /\ Preprocessing.t2_seg p = None
                  /\ Preprocessing.t2_landmarks p = None).
Proof.
  intros w target sc tmp t2_data lvl den r. subst r.
  split; [reflexivity|].
  unfold Preprocessing.__init__. autounfold with py. cbn.
  repeat step.
  all: split; [reflexivity|intros obj Hp; cbn in Hp; try discriminate Hp].
  all: injection Hp as <-; cbn; auto.
Qed.

Ltac irp_contra :=
  match goal with
  | B : negb (?s =? "IRP") = true, Ho : ?s = "IRP" |- _ =>
      rewrite Ho in B; discriminate B
  | B : negb (?s =? "IRP") = false, Ho : ?s <> "IRP" |- _ =>
      apply negb_false_iff, String.eqb_eq in B; contradiction
  end.

Ltac result_field :=
  let obj := fresh "obj" in
  let Hp := fresh "Hp" in
  intros obj Hp; cbn in Hp; try discriminate Hp; injection Hp as <-; reflexivity.

(** A status that passed, or failed, the test [status == 0]. *)
Ltac zero_status :=
  repeat match goal with
         | B : (0 =? 0)%Z = false |- _ => discriminate B
         | B : (?z =? 0)%Z = true |- _ => apply Z.eqb_eq in B; subst z
         end.

(** C8.  A level volume is supplied ([check_file_to_niigz] answers its
    name, split by [extract_fname] into [n] and [e]).  Once its orientation
    has been queried (line 85), the reorientation to IRP (line 88) is run
    if and only if the answer is not "IRP"; a volume already in IRP is
    neither reoriented nor renamed, the other one becomes [n ++ "_IRP"]. *)
Theorem level_volume_reoriented_unless_IRP :
  forall w target_fname sc_seg_fname tmp_dir t2_data level_fname denoising
         nii d n e,
    w_check_file_to_niigz w 0 level_fname = Some nii -> nii <> "" ->
    w_extract_fname w nii = (d, n, e) ->
    let r := Preprocessing.__init__ target_fname sc_seg_fname tmp_dir
               t2_data (Some level_fname) denoising w [] in
    (forall q out,
        In (Run 85 q 0 out) (fst r) ->
        q = "sct_orientation -i " ++ n ++ e
        /\ (out = "IRP" ->
            never_at [88]%nat (fst r) = true
            /\ forall p, snd r = Ok p ->
                         Preprocessing.level_fname p = Some (n ++ e))
        /\ (out <> "IRP" ->
            (exists st' out',
                events_at [88]%nat (fst r)
                = [Run 88 ("sct_orientation -i " ++ n ++ e ++ " -s IRP") st' out'])
            /\ forall p, snd r = Ok p ->
                         Preprocessing.level_fname p = Some ((n ++ "_IRP") ++ e)))
    /\ (forall c st o,
           In (Run 88 c st o) (fst r) ->
           exists out,
             In (Run 85 ("sct_orientation -i " ++ n ++ e) 0 out) (fst r)
             /\ out <> "IRP").
Proof.
  intros w target sc tmp t2_data lvl den nii d n e Hc Hn He r. subst r.
  unfold Preprocessing.__init__. autounfold with py. cbn.
  rewrite Hc. apply String.eqb_neq in Hn. rewrite Hn, He. cbn.
  repeat step.
  all: split; [intros cmd85 out85 HIn|intros cmd88 st88 out88 HIn]; in_trace HIn.
  all: injection HIn as; subst.
  all: try zero_status.
  all: first
         [ split; [reflexivity|];
           split; intros Ho;
           [ first [ irp_contra
                   | split; [reflexivity|result_field] ]
           | first [ irp_contra
                   | split; [do 2 eexists; reflexivity|result_field] ] ]
         | eexists; split; [cbn; tauto|intros Ho; irp_contra] ].
Qed.

Lemma level_volume_reoriented_unless_IRP_witness :
  let r := Preprocessing.__init__ "t2star.nii.gz" "seg.nii.gz" "tmp" None
             (Some "levels.nii.gz") false
             (calm_world "RPI" (3 # 10) (3 # 10)) [] in
  (exists st' out',
      events_at [88]%nat (fst r)
      = [Run 88 "sct_orientation -i levels.nii.gz -s IRP" st' out'])
  /\ forall p, snd r = Ok p ->
               Preprocessing.level_fname p = Some "levels_IRP.nii.gz".
Proof.
  assert (Hn : "levels.nii.gz" <> "") by discriminate.
  destruct (level_volume_reoriented_unless_IRP
              (calm_world "RPI" (3 # 10) (3 # 10))
              "t2star.nii.gz" "seg.nii.gz" "tmp" None "levels.nii.gz" false
              "levels.nii.gz" "" "levels" ".nii.gz" eq_refl Hn eq_refl)
    as [H _].
  destruct (H "sct_orientation -i levels.nii.gz" "RPI") as (_ & _ & H2).
  - vm_compute. repeat first [left; reflexivity | right].
  - apply H2. discriminate.
Defined.

Ltac resampling_test :=
  match goal with
  | B : Preprocessing.needs_resampling _ _ _ = _ |- _ => rewrite B
  end.

(** C2.  Once the native spacing [px], [py] has been read (line 58), the
    two resamplings of lines 61 and 62 are made if and only if [px] or
    [py], rounded to two decimal places, is not 0.3; they are made
    together: the subject first, not as a binary volume, then the cord
    segmentation as a binary one, both to 0.3 by 0.3.  Nearest-voxel
    resampling of a binary volume gives a binary volume. *)
Theorem resampled_iff_spacing_differs :
  forall w target_fname sc_seg_fname tmp_dir t2_data level_fname denoising,
    let r := Preprocessing.__init__ target_fname sc_seg_fname tmp_dir
               t2_data level_fname denoising w [] in
    (forall px py,
        Preprocessing.needs_resampling px py (3 # 10) = true
        <-> (~ round2 px == 3 # 10 \/ ~ round2 py == 3 # 10))
    /\ (forall f px py,
           In (GetDimension 58 f px py) (fst r) ->
           events_at [61; 62]%nat (fst r)
           = if Preprocessing.needs_resampling px py (3 # 10)
             then [ResampleImage 61 "target.nii.gz" false (3 # 10) (3 # 10);
                   ResampleImage 62 "target_sc_seg.nii.gz" true (3 # 10) (3 # 10)]
             else [])
    /\ (forall px py v,
           Geometry.is_binary v ->
           Geometry.is_binary
             (Geometry.resample_binary px py (3 # 10) (3 # 10) v)).
Proof.
  intros w target sc tmp t2_data lvl den r. subst r.
  split; [intros px py; apply needs_resampling_spec|].
  split; [|intros px py v; apply resample_binary_preserves].
  intros f px py.
  match goal with
  | |- _ -> _ = ?rhs => remember rhs as expected eqn:Hexp
  end.
  unfold Preprocessing.__init__. autounfold with py.
  destruct lvl as [lvl|], t2_data as [t2_data|]; cbn.
  all: repeat step.
  all: intros HIn; in_trace HIn.
  all: injection HIn as; subst.
  all: resampling_test; reflexivity.
Qed.

Lemma resampled_iff_spacing_differs_witness :
  let r := Preprocessing.__init__ "t2star.nii.gz" "seg.nii.gz" "tmp" None None
             false (calm_world "RPI" (1 # 2) (1 # 2)) [] in
  events_at [61; 62]%nat (fst r)
  = [ResampleImage 61 "target.nii.gz" false (3 # 10) (3 # 10);
     ResampleImage 62 "target_sc_seg.nii.gz" true (3 # 10) (3 # 10)]
  /\ Geometry.is_binary
       (Geometry.resample_binary (1 # 2) (1 # 2) (3 # 10) (3 # 10) [[[1]]]).
Proof.
  destruct (resampled_iff_spacing_differs
              (calm_world "RPI" (1 # 2) (1 # 2))
              "t2star.nii.gz" "seg.nii.gz" "tmp" None None false) as (_ & H1 & H2).
  split.
  - apply (H1 "target.nii.gz" (1 # 2) (1 # 2)).
    vm_compute. repeat first [left; reflexivity | right].
  - apply H2. unfold Geometry.is_binary.
    do 2 (constructor; [|constructor]). constructor; [now right|constructor].
Defined.

Ltac in_list := cbn; repeat first [left; reflexivity | right].

Ltac ended_well Hp :=
  cbn in Hp; try discriminate Hp; injection Hp as <-;
  repeat match goal with
         | B : (?z =? 0)%Z = true |- _ => apply Z.eqb_eq in B; subst z
         end.


Ltac prob_or_not :=
  match goal with
  | B : (_ =? "prob") = true |- _ => apply String.eqb_eq in B
  | B : (_ =? "prob") = false |- _ => apply String.eqb_neq in B
  end.

(** ** The cleanup of the probabilistic results *)

Lemma pointwise_vmap (R : Q -> Q -> Prop) (f : Q -> Q) (v : volume) :
  (forall x, R x (f x)) -> pointwise R v (Geometry.vmap f v).
Proof.
  intros Hf. unfold pointwise, Geometry.vmap.
  induction v as [|s v IHv]; cbn; constructor; [|exact IHv].
  induction s as [|r s IHs]; cbn; constructor; [|exact IHs].
  induction r as [|x r IHr]; cbn; constructor; [apply Hf|exact IHr].
Qed.



(** ** The results compared with the reference *)

Lemma events_at_app ls t1 t2 :
  events_at ls (t1 ++ t2) = (events_at ls t1 ++ events_at ls t2)%list.
Proof. unfold events_at. apply filter_app. Qed.

Section Emits.
Context {A B : Type}.

Lemma emits_stay ls es (m : M A) :
  (forall w h, fst (m w h) = h) ->
  (forall w h a, snd (m w h) = Ok a -> es = []) ->
  emits ls es m.
Proof.
  intros Hf Hs w h. exists [], es. rewrite Hf, app_nil_r.
  split; [reflexivity|]. split; [reflexivity|]. apply Hs.
Qed.

Lemma emits_ret ls (a : A) : emits ls [] (ret a).
Proof. now apply emits_stay. Qed.

Lemma emits_raise ls es e : emits ls es (@raise A e).
Proof. apply emits_stay; [reflexivity|]. intros w h a Ha. discriminate Ha. Qed.

Lemma emits_ask ls e (f : world -> list event -> A) :
  emits ls (events_at ls [e]) (ask e f).
Proof.
  intros w h. exists (events_at ls [e]), []. cbn [ask fst].
  rewrite events_at_app, app_nil_r. repeat split; reflexivity.
Qed.

Lemma emits_ask_in ls e (f : world -> list event -> A) :
  among ls e = true -> emits ls [e] (ask e f).
Proof.
  intros He. replace [e] with (events_at ls [e]); [apply emits_ask|].
  unfold events_at. cbn. now rewrite He.
Qed.

Lemma emits_ask_out ls e (f : world -> list event -> A) :
  among ls e = false -> emits ls [] (ask e f).
Proof.
  intros He. replace (@nil event) with (events_at ls [e]); [apply emits_ask|].
  unfold events_at. cbn. now rewrite He.
Qed.

Lemma emits_bind ls es e1 e2 (m : M A) (k : A -> M B) :
  emits ls e1 m -> (forall a, emits ls e2 (k a)) -> es = (e1 ++ e2)%list ->
  emits ls es (bind m k).
Proof.
  intros Hm Hk -> w h. unfold bind.
  destruct (Hm w h) as (p1 & s1 & E1 & -> & O1).
  destruct (m w h) as [h1 [a|e]]; cbn [fst snd] in *.
  - rewrite (O1 a eq_refl), app_nil_r.
    destruct (Hk a w h1) as (p2 & s2 & E2 & -> & O2).
    exists (p1 ++ p2)%list, s2.
    rewrite E2, E1, !app_assoc. repeat split. exact O2.
  - exists p1, (s1 ++ e2)%list.
    rewrite app_assoc. repeat split; [exact E1|].
    intros a Ha. discriminate Ha.
Qed.

Lemma emits_try ls (body handler : M A) :
  emits ls [] body -> emits ls [] handler ->
  emits ls [] (try_except body handler).
Proof.
  intros Hb Hh w h. unfold try_except.
  destruct (Hb w h) as (p1 & s1 & E1 & D1 & O1).
  symmetry in D1. apply app_eq_nil in D1. destruct D1 as [-> ->].
  destruct (body w h) as [h1 [a|e]]; cbn [fst snd] in *.
  - exists [], []. repeat split. exact E1.
  - destruct (is_Exception e).
    + destruct (Hh w h1) as (p2 & s2 & E2 & D2 & O2).
      exists p2, s2. rewrite E2, E1, app_nil_r. repeat split; assumption.
    + exists [], []. repeat split. exact E1.
Qed.

End Emits.

Lemma emits_run_with ls line cmd ee re :
  existsb (Nat.eqb line) ls = false -> emits ls [] (run_with line cmd ee re).
Proof.
  intros Hl w h. exists [], []. unfold run_with.
  destruct (w_run w (length h) cmd) as [st out].
  assert (E : events_at ls (h ++ [Run line cmd st out])
              = (events_at ls h ++ [])%list).
  { rewrite events_at_app. f_equal. unfold events_at, among. cbn.
    now rewrite Hl. }
  destruct (st =? 0)%Z; [|destruct re]; repeat split; exact E.
Qed.


Lemma emits_extract_fname ls f : emits ls [] (extract_fname f).
Proof. now apply emits_stay. Qed.

Ltac emits_step :=
  lazymatch goal with
  | |- emits _ _ (bind _ _) => eapply emits_bind; [|intros|]
  | |- emits _ _ (ret _) => apply emits_ret
  | |- emits _ _ (raise _) => apply emits_raise
  | |- emits _ _ (extract_fname _) => apply emits_extract_fname
  | |- emits _ _ (run_with _ _ _ _) => apply emits_run_with; reflexivity
  | |- emits _ _ (ask _ _) =>
      first [ apply emits_ask_out; reflexivity
            | apply emits_ask_in; reflexivity ]
  | |- emits _ _ (try_except _ _) => apply emits_try
  | |- emits _ _ (match ?x with _ => _ end) => destruct x
  | |- emits _ _ (let _ := _ in _) => cbv zeta
  | |- emits _ _ _ => progress autounfold with calls
  | |- @eq (list event) _ _ => reflexivity
  end.

(** The results the validation saves and loads again, in order. *)
Lemma validation_emits self :
  let rt := FullGmSegmentation.res_type (FullGmSegmentation.param self) in
  let gm := FullGmSegmentation.res_gm_seg (FullGmSegmentation.gm_seg self) in
  let wm := FullGmSegmentation.res_wm_seg (FullGmSegmentation.gm_seg self) in
  let b := FullGmSegmentation.binarize_for_validation rt gm wm in
  emits [281; 286; 303; 307]%nat
        [Save 281 (rename (fst b) "./" "res_gm_seg_bin" ".nii.gz");
         Save 286 (rename (snd b) "./" "res_wm_seg_bin" ".nii.gz");
         Load 303 "res_gm_seg_bin_RPI.nii.gz";
         Load 307 "res_wm_seg_bin_RPI.nii.gz"]
        (FullGmSegmentation.validation self).
Proof.
  cbv zeta. unfold FullGmSegmentation.validation.
  destruct (FullGmSegmentation.binarize_for_validation
              (FullGmSegmentation.res_type (FullGmSegmentation.param self))
              (FullGmSegmentation.res_gm_seg (FullGmSegmentation.gm_seg self))
              (FullGmSegmentation.res_wm_seg (FullGmSegmentation.gm_seg self)))
    as [g b].
  cbn [fst snd].
  repeat emits_step.
Qed.

Lemma pointwise_ge thr v :
  pointwise (fun x y => (thr <= x -> y = 1) /\ (x < thr -> y = 0))
            v (Geometry.vmap (FullGmSegmentation.ge thr) v).
Proof. apply pointwise_vmap. intros x. apply ge_spec. Qed.

(** C5.  A validation that ends normally has saved the two results it
    compares with the reference, once each, as [res_gm_seg_bin] (line 281)
    and [res_wm_seg_bin] (line 286), and these are the files it loads
    again, reoriented, for the comparison (lines 303 and 307).  When the
    output type is "prob" their voxels are those of the computed results
    binarised, gray matter by (value >= 0.5) and white matter by
    (value >= 0.50001); with any other type, "binary" included, what is
    saved are the computed results, unchanged.  Voxels and thresholds are
    read as exact rationals. *)
Theorem validation_binarizes_probabilistic_only :
  forall self w names,
    let rt := FullGmSegmentation.res_type (FullGmSegmentation.param self) in
    let gm := FullGmSegmentation.res_gm_seg (FullGmSegmentation.gm_seg self) in
    let wm := FullGmSegmentation.res_wm_seg (FullGmSegmentation.gm_seg self) in
    let r := FullGmSegmentation.validation self w [] in
    snd r = Ok names ->
    exists res_gm_seg_bin res_wm_seg_bin,
      events_at [281; 286; 303; 307]%nat (fst r)
      = [Save 281 (rename res_gm_seg_bin "./" "res_gm_seg_bin" ".nii.gz");
         Save 286 (rename res_wm_seg_bin "./" "res_wm_seg_bin" ".nii.gz");
         Load 303 "res_gm_seg_bin_RPI.nii.gz";
         Load 307 "res_wm_seg_bin_RPI.nii.gz"]
      /\ (rt = "prob" ->
          pointwise (fun x y => (5 # 10 <= x -> y = 1) /\ (x < 5 # 10 -> y = 0))
                    (data gm) (data res_gm_seg_bin)
          /\ pointwise (fun x y => (50001 # 100000 <= x -> y = 1)
                                   /\ (x < 50001 # 100000 -> y = 0))
                       (data wm) (data res_wm_seg_bin))
      /\ (rt <> "prob" -> res_gm_seg_bin = gm /\ res_wm_seg_bin = wm).
Proof.
  intros self w names rt gm wm r Hp.
  destruct (validation_emits self w []) as (p & s & E & D & O).
  fold r in E, O. rewrite (O names Hp), app_nil_r in D. subst p.
  cbn [events_at filter app] in E.
  fold rt gm wm in E.
  exists (fst (FullGmSegmentation.binarize_for_validation rt gm wm)),
         (snd (FullGmSegmentation.binarize_for_validation rt gm wm)).
  split; [exact E|].
  unfold FullGmSegmentation.binarize_for_validation.
  split; intros Hrt.
  - rewrite Hrt. cbn [String.eqb Ascii.eqb Bool.eqb fst snd set_data data].
    change (("prob" =? "prob")%string) with true. cbv iota. cbn [fst snd data set_data].
    split; apply pointwise_ge.
  - apply String.eqb_neq in Hrt. rewrite Hrt. split; reflexivity.
Qed.

(** C5 on a subject whose gray-matter and white-matter results both hold
    the value 0.5: as "prob" the first is saved as 1 and the second as 0. *)
Lemma validation_binarizes_probabilistic_only_witness :
  exists res_gm_seg_bin res_wm_seg_bin,
    events_at [281; 286; 303; 307]%nat
      (fst (FullGmSegmentation.validation (small_subject "prob")
              (calm_world "0.9" (1 # 2) (1 # 2)) []))
    = [Save 281 (rename res_gm_seg_bin "./" "res_gm_seg_bin" ".nii.gz");
       Save 286 (rename res_wm_seg_bin "./" "res_wm_seg_bin" ".nii.gz");
       Load 303 "res_gm_seg_bin_RPI.nii.gz";
       Load 307 "res_wm_seg_bin_RPI.nii.gz"]
    /\ pointwise (fun x y => (5 # 10 <= x -> y = 1) /\ (x < 5 # 10 -> y = 0))
                 [[[1 # 2]]] (data res_gm_seg_bin)
    /\ pointwise (fun x y => (50001 # 100000 <= x -> y = 1)
                             /\ (x < 50001 # 100000 -> y = 0))
                 [[[1 # 2]]] (data res_wm_seg_bin).
Proof.
  destruct (snd (FullGmSegmentation.validation (small_subject "prob")
                   (calm_world "0.9" (1 # 2) (1 # 2)) [])) as [names|e] eqn:E;
    [|vm_compute in E; discriminate E].
  destruct (validation_binarizes_probabilistic_only
              (small_subject "prob") (calm_world "0.9" (1 # 2) (1 # 2)) names E)
    as (g & b & Hs & Hprob & _).
  exists g, b. split; [exact Hs|]. exact (Hprob eq_refl).
Defined.

(** * More of the script *)

(** ** Directories, by the structure of the run *)

Arguments chdirs : simpl never.

Lemma chdirs_app t1 t2 : chdirs (t1 ++ t2) = (chdirs t1 ++ chdirs t2)%list.
Proof. unfold chdirs. apply flat_map_app. Qed.

Section Walks.
Context {A B : Type}.

Lemma walks_stay ds (m : M A) :
  (forall w h, fst (m w h) = h) ->
  (forall w h a, snd (m w h) = Ok a -> ds = []) ->
  walks ds m.
Proof.
  intros Hf Hs w h. exists [], ds. rewrite Hf, app_nil_r.
  split; [reflexivity|]. split; [reflexivity|]. apply Hs.
Qed.

Lemma walks_ret (a : A) : walks [] (ret a).
Proof. now apply walks_stay. Qed.

Lemma walks_raise ds e : walks ds (@raise A e).
Proof. apply walks_stay; [reflexivity|]. intros w h a Ha. discriminate Ha. Qed.

Lemma walks_ask e (f : world -> list event -> A) :
  chdirs [e] = [] -> walks [] (ask e f).
Proof.
  intros He w h. exists [], []. cbn [ask fst].
  rewrite chdirs_app, He. repeat split; reflexivity.
Qed.

Lemma walks_bind ds d1 d2 (m : M A) (k : A -> M B) :
  walks d1 m -> (forall a, walks d2 (k a)) -> ds = (d1 ++ d2)%list ->
  walks ds (bind m k).
Proof.
  intros Hm Hk -> w h. unfold bind.
  destruct (Hm w h) as (p1 & s1 & E1 & -> & O1).
  destruct (m w h) as [h1 [a|e]]; cbn [fst snd] in *.
  - rewrite (O1 a eq_refl), app_nil_r.
    destruct (Hk a w h1) as (p2 & s2 & E2 & -> & O2).
    exists (p1 ++ p2)%list, s2.
    rewrite E2, E1, !app_assoc. repeat split. exact O2.
  - exists p1, (s1 ++ d2)%list.
    rewrite app_assoc. repeat split; [exact E1|].
    intros a Ha. discriminate Ha.
Qed.

Lemma walks_try (body handler : M A) :
  walks [] body -> walks [] handler -> walks [] (try_except body handler).
Proof.
  intros Hb Hh w h. unfold try_except.
  destruct (Hb w h) as (p1 & s1 & E1 & D1 & O1).
  symmetry in D1. apply app_eq_nil in D1. destruct D1 as [-> ->].
  destruct (body w h) as [h1 [a|e]]; cbn [fst snd] in *.
  - exists [], []. repeat split. exact E1.
  - destruct (is_Exception e).
    + destruct (Hh w h1) as (p2 & s2 & E2 & D2 & O2).
      exists p2, s2. rewrite E2, E1, app_nil_r. repeat split; assumption.
    + exists [], []. repeat split. exact E1.
Qed.

End Walks.

Lemma walks_chdir line d : walks [d] (chdir line d).
Proof.
  intros w h. exists [d], []. cbn [chdir ask fst].
  rewrite chdirs_app. repeat split.
Qed.

Lemma walks_run_with line cmd ee re : walks [] (run_with line cmd ee re).
Proof.
  intros w h. exists [], []. unfold run_with.
  destruct (w_run w (length h) cmd) as [st out].
  assert (E : chdirs (h ++ [Run line cmd st out]) = (chdirs h ++ [])%list).
  { now rewrite chdirs_app. }
  destruct (st =? 0)%Z; [|destruct re]; repeat split; exact E.
Qed.

Lemma walks_get_dimension line f : walks [] (get_dimension line f).
Proof.
  intros w h. exists [], []. unfold get_dimension.
  destruct (w_get_dimension w (length h) f) as [px py]. cbn [fst].
  rewrite chdirs_app. repeat split.
Qed.

Lemma walks_extract_fname f : walks [] (extract_fname f).
Proof. now apply walks_stay. Qed.

Lemma walks_lift {A} (r : result A) : walks [] (lift r).
Proof. now apply walks_stay. Qed.

Ltac walks_step :=
  lazymatch goal with
  | |- walks _ (bind _ _) => eapply walks_bind; [|intros|]
  | |- walks _ (ret _) => apply walks_ret
  | |- walks _ (raise _) => apply walks_raise
  | |- walks _ (lift _) => apply walks_lift
  | |- walks _ (chdir _ _) => apply walks_chdir
  | |- walks _ (extract_fname _) => apply walks_extract_fname
  | |- walks _ (get_dimension _ _) => apply walks_get_dimension
  | |- walks _ (run_with _ _ _ _) => apply walks_run_with
  | |- walks _ (ask _ _) => apply walks_ask; reflexivity
  | |- walks _ (try_except _ _) => apply walks_try
  | |- walks _ (match ?x with _ => _ end) => destruct x
  | |- walks _ (let _ := _ in _) => cbv zeta
  | |- walks _ _ => progress autounfold with calls
  | |- @eq (list string) _ _ => reflexivity
  end.

Lemma preprocessing_walks target sc tmp t2_data lvl den :
  walks [tmp; ".."] (Preprocessing.__init__ target sc tmp t2_data lvl den).
Proof.
  unfold Preprocessing.__init__.
  repeat walks_step.
Qed.

Lemma post_processing_walks self :
  walks [] (FullGmSegmentation.post_processing self).
Proof.
  unfold FullGmSegmentation.post_processing, FullGmSegmentation.post_process_one.
  repeat walks_step.
Qed.

Lemma validation_walks self :
  walks ["validation"; ".."] (FullGmSegmentation.validation self).
Proof.
  unfold FullGmSegmentation.validation.
  repeat walks_step.
Qed.

(** ** More of Preprocessing *)

(** The commands that the hypothesis [Hrun] makes succeed. *)
Ltac commands_succeed Hrun :=
  repeat match goal with
         | H : w_run ?w ?t ?c = (?z, _) |- _ =>
             let E := fresh "E" in
             pose proof (Hrun t c) as E; rewrite H in E; cbn in E;
             subst z; clear H
         end;
  repeat match goal with
         | B : (0 =? 0)%Z = false |- _ => discriminate B
         end.

(** X1.  A level file is named but [check_file_to_niigz] does not answer a
    file name ([False], here [None], or an empty name): the names
    [level_file_name] and [level_ext] are never bound, nothing is copied
    at line 36, and the constructor cannot end normally.  When the
    commands succeed it goes as far as line 85 and stops there on a
    [NameError], inside the temporary directory. *)
Theorem level_file_not_found_raises_NameError :
  forall w target_fname sc_seg_fname tmp_dir t2_data level_fname denoising,
    (w_check_file_to_niigz w 0 level_fname = None
     \/ w_check_file_to_niigz w 0 level_fname = Some "") ->
    let r := Preprocessing.__init__ target_fname sc_seg_fname tmp_dir
               t2_data (Some level_fname) denoising w [] in
    (forall p, snd r <> Ok p)
    /\ never_at [36; 85; 88; 92]%nat (fst r) = true
    /\ ((forall t c, fst (w_run w t c) = 0%Z) ->
        snd r = Raise (NameError "level_file_name")
        /\ chdirs (fst r) = [tmp_dir]).
Proof.
  intros w target sc tmp t2_data lvl den Hc r. subst r.
  unfold Preprocessing.__init__. autounfold with py. cbn.
  destruct Hc as [Hc|Hc]; rewrite Hc; cbn.
  all: repeat step.
  all: split; [intros obj Hp; discriminate Hp|].
  all: split; [reflexivity|].
  all: intros Hrun; commands_succeed Hrun.
  all: split; reflexivity.
Qed.

Lemma level_file_not_found_raises_NameError_witness :
  let r := Preprocessing.__init__ "t2star.nii.gz" "seg.nii.gz" "tmp" None
             (Some "levels.nii.gz") false
             (world_without_file "RPI" (3 # 10) (3 # 10)) [] in
  snd r = Raise (NameError "level_file_name") /\ chdirs (fst r) = ["tmp"].
Proof.
  refine (proj2 (proj2 (level_file_not_found_raises_NameError
            (world_without_file "RPI" (3 # 10) (3 # 10))
            "t2star.nii.gz" "seg.nii.gz" "tmp" None "levels.nii.gz" false
            (or_introl eq_refl))) _).
  intros t c. reflexivity.
Defined.

(** X2.  T2 data with fewer than three names (and no level file): the
    constructor cannot end normally and never enters the temporary
    directory.  When the commands succeed, the T2 files that are there are
    copied, and the first missing one ends the run on an [IndexError]. *)
Theorem short_t2_data_raises_IndexError :
  forall w target_fname sc_seg_fname tmp_dir t2_data denoising,
    (length t2_data < 3)%nat ->
    let r := Preprocessing.__init__ target_fname sc_seg_fname tmp_dir
               (Some t2_data) None denoising w [] in
    (forall p, snd r <> Ok p)
    /\ never_at [55; 58]%nat (fst r) = true
    /\ ((forall t c, fst (w_run w t c) = 0%Z) ->
        snd r = Raise IndexError
        /\ length (events_at [50; 51; 52]%nat (fst r)) = length t2_data).
Proof.
  intros w target sc tmp d den Hlen r. subst r.
  unfold Preprocessing.__init__. autounfold with py.
  destruct d as [|d0 [|d1 [|d2 rest]]]; cbn in Hlen; try lia; clear Hlen; cbn.
  all: repeat step.
  all: split; [intros obj Hp; discriminate Hp|].
  all: split; [reflexivity|].
  all: intros Hrun; commands_succeed Hrun.
  all: split; reflexivity.
Qed.

Lemma short_t2_data_raises_IndexError_witness :
  let r := Preprocessing.__init__ "t2star.nii.gz" "seg.nii.gz" "tmp"
             (Some ["t2.nii.gz"; "t2_seg.nii.gz"]) None false
             (calm_world "RPI" (3 # 10) (3 # 10)) [] in
  snd r = Raise IndexError
  /\ length (events_at [50; 51; 52]%nat (fst r)) = 2%nat.
Proof.
  assert (Hlen : (length ["t2.nii.gz"; "t2_seg.nii.gz"] < 3)%nat) by (cbn; lia).
  refine (proj2 (proj2 (short_t2_data_raises_IndexError
            (calm_world "RPI" (3 # 10) (3 # 10))
            "t2star.nii.gz" "seg.nii.gz" "tmp" ["t2.nii.gz"; "t2_seg.nii.gz"]
            false Hlen)) _).
  intros t c. reflexivity.
Defined.

(** The trace [l], cut at the call of line 83. *)
Ltac before_level_file l k :=
  lazymatch l with
  | ComputeLevelFile 83 _ _ _ _ _ :: ?post => k (@nil event) post
  | ?x :: ?post => before_level_file post ltac:(fun pre post' => k (x :: pre) post')
  end.

(** X3.  T2 data and no level file, the run ending normally: the first
    three names are copied as [t2.nii.gz], [t2_seg.nii.gz] and
    [t2_landmarks.nii.gz], and the level file kept is the answer of
    [compute_level_file] at its one call (line 83), on the names of the
    subject and of its cord segmentation as resampling and denoising left
    them.  No level volume is read or reoriented. *)
Theorem t2_data_gives_the_level_file :
  forall w target_fname sc_seg_fname tmp_dir d0 d1 d2 rest denoising p,
    let r := Preprocessing.__init__ target_fname sc_seg_fname tmp_dir
               (Some (d0 :: d1 :: d2 :: rest)) None denoising w [] in
    snd r = Ok p ->
    (exists o0 o1 o2,
        events_at [50; 51; 52]%nat (fst r)
        = [Run 50 ("cp " ++ d0 ++ " " ++ tmp_dir ++ "/" ++ "t2.nii.gz") 0 o0;
           Run 51 ("cp " ++ d1 ++ " " ++ tmp_dir ++ "/" ++ "t2_seg.nii.gz") 0 o1;
           Run 52 ("cp " ++ d2 ++ " " ++ tmp_dir ++ "/" ++ "t2_landmarks.nii.gz")
               0 o2])
    /\ Preprocessing.t2 p = Some "t2.nii.gz"
    /\ Preprocessing.t2_seg p = Some "t2_seg.nii.gz"
    /\ Preprocessing.t2_landmarks p = Some "t2_landmarks.nii.gz"
    /\ events_at [83]%nat (fst r)
       = [ComputeLevelFile 83 (Preprocessing.t2star p) (Preprocessing.sc_seg p)
            "t2.nii.gz" "t2_seg.nii.gz" "t2_landmarks.nii.gz"]
    /\ (exists before after,
           fst r
           = (before
                ++ ComputeLevelFile 83 (Preprocessing.t2star p)
                     (Preprocessing.sc_seg p)
                     "t2.nii.gz" "t2_seg.nii.gz" "t2_landmarks.nii.gz"
                :: after)%list
           /\ Preprocessing.level_fname p
              = Some (w_compute_level_file w (length before)
                        (Preprocessing.t2star p) (Preprocessing.sc_seg p)
                        "t2.nii.gz" "t2_seg.nii.gz" "t2_landmarks.nii.gz"))
    /\ never_at [33; 36; 85; 88]%nat (fst r) = true.
Proof.
  intros w target sc tmp d0 d1 d2 rest den obj r. subst r.
  unfold Preprocessing.__init__. autounfold with py. cbn.
  repeat step.
  all: intros Hp; ended_well Hp.
  all: split; [do 3 eexists; reflexivity|].
  all: repeat (split; [reflexivity|]).
  all: split; [|reflexivity].
  all: lazymatch goal with
       | |- exists before after, ?l = _ /\ _ =>
           before_level_file l
             ltac:(fun pre post => exists pre, post; split; reflexivity)
       end.
Qed.

Lemma t2_data_gives_the_level_file_witness :
  exists p,
    let r := Preprocessing.__init__ "t2star.nii.gz" "seg.nii.gz" "tmp"
               (Some ["t2.nii.gz"; "t2_seg.nii.gz"; "labels.nii.gz"]) None false
               (calm_world "RPI" (3 # 10) (3 # 10)) [] in
    snd r = Ok p
    /\ Preprocessing.level_fname p = Some "target_levels.nii.gz"
    /\ events_at [83]%nat (fst r)
       = [ComputeLevelFile 83 "target.nii.gz" "target_sc_seg.nii.gz"
            "t2.nii.gz" "t2_seg.nii.gz" "t2_landmarks.nii.gz"].
Proof.
  eexists. cbv zeta. split; [reflexivity|]. split; [reflexivity|].
  refine (proj1 (proj2 (proj2 (proj2 (proj2
            (t2_data_gives_the_level_file
               (calm_world "RPI" (3 # 10) (3 # 10))
               "t2star.nii.gz" "seg.nii.gz" "tmp"
               "t2.nii.gz" "t2_seg.nii.gz" "labels.nii.gz" [] false _ eq_refl)))))).
Defined.

(** X4.  Neither a level file nor T2 data: no level file is looked for,
    copied, computed or reoriented, and the constructor leaves
    [level_fname] and the three T2 names at [None]. *)
Theorem no_level_without_level_file_or_t2_data :
  forall w target_fname sc_seg_fname tmp_dir denoising,
    let r := Preprocessing.__init__ target_fname sc_seg_fname tmp_dir
               None None denoising w [] in
    never_at [33; 36; 50; 51; 52; 83; 85; 88]%nat (fst r) = true
    /\ (forall p, snd r = Ok p ->
                  Preprocessing.level_fname p = None
                  /\ Preprocessing.t2 p = None
                  /\ Preprocessing.t2_seg p = None
                  /\ Preprocessing.t2_landmarks p = None).
Proof.
  intros w target sc tmp den r. subst r.
  unfold Preprocessing.__init__. autounfold with py. cbn.
  repeat step.
  all: split; [reflexivity|intros obj Hp; ended_well Hp].
  all: repeat split.
Qed.

(** X5.  Denoising is optional.  Without it the subject is neither
    denoised nor saved again, and the name kept is the one loaded at line
    65.  With it, a run that ends normally has denoised the loaded image
    and saved it, and keeps the name and the orientation of the image it
    saved. *)
Theorem denoising_is_optional :
  forall w target_fname sc_seg_fname tmp_dir t2_data level_fname,
    (let r := Preprocessing.__init__ target_fname sc_seg_fname tmp_dir
                t2_data level_fname false w [] in
     never_at [67; 68]%nat (fst r) = true
     /\ forall p, snd r = Ok p ->
                  events_at [65]%nat (fst r) = [Load 65 (Preprocessing.t2star p)])
    /\ (let r := Preprocessing.__init__ target_fname sc_seg_fname tmp_dir
                   t2_data level_fname true w [] in
        forall p, snd r = Ok p ->
                  exists f loaded im,
                    events_at [65; 67; 68]%nat (fst r)
                    = [Load 65 f; DenoiseOrnlm 67 (fname_of loaded); Save 68 im]
                    /\ Preprocessing.t2star p = fname_of im
                    /\ Preprocessing.original_orientation p = orientation im).
Proof.
  intros w target sc tmp t2_data lvl.
  split; cbv zeta.
  all: unfold Preprocessing.__init__; autounfold with py.
  all: destruct lvl as [lvl|], t2_data as [t2_data|]; cbn.
  all: repeat step.
  all: try (split; [reflexivity|]).
  all: intros obj Hp; ended_well Hp.
  all: first [reflexivity | do 3 eexists; repeat split].
Qed.

(** X6.  What a constructor that ends normally keeps: the spacing read at
    line 58 (the native one, also when the volumes are then resampled to
    0.3); the square mask cut at line 77 around the cord, in a box of 75
    voxels, on the names of the subject and of the cord segmentation as
    they are kept; the name of the subject with its extension replaced by
    [_seg_in_croped.nii.gz] as the name of the treated target. *)
Theorem preprocessing_keeps_what_it_read :
  forall w target_fname sc_seg_fname tmp_dir t2_data level_fname denoising p,
    let r := Preprocessing.__init__ target_fname sc_seg_fname tmp_dir
               t2_data level_fname denoising w [] in
    snd r = Ok p ->
    events_at [58]%nat (fst r)
    = [GetDimension 58 "target.nii.gz"
         (Preprocessing.original_px p) (Preprocessing.original_py p)]
    /\ Preprocessing.resample_to p = 3 # 10
    /\ events_at [77]%nat (fst r)
       = [CropT2Star 77 (Preprocessing.t2star p) (Preprocessing.sc_seg p) 75]
    /\ Preprocessing.treated_target p
       = snd (fst (w_extract_fname w (Preprocessing.t2star p)))
           ++ "_seg_in_croped.nii.gz".
Proof.
  intros w target sc tmp t2_data lvl den obj r. subst r.
  unfold Preprocessing.__init__. autounfold with py.
  destruct lvl as [lvl|], t2_data as [t2_data|]; cbn.
  all: repeat step.
  all: intros Hp; ended_well Hp.
  all: repeat (split; [reflexivity|]).
  all: cbn;
    repeat match goal with
           | H : w_extract_fname _ _ = _ |- _ => rewrite H
           end; reflexivity.
Qed.

Lemma preprocessing_keeps_what_it_read_witness :
  exists p,
    let r := Preprocessing.__init__ "t2star.nii.gz" "seg.nii.gz" "tmp"
               None None true (calm_world "RPI" (1 # 2) (1 # 2)) [] in
    snd r = Ok p
    /\ events_at [58]%nat (fst r) = [GetDimension 58 "target.nii.gz" (1 # 2) (1 # 2)]
    /\ events_at [77]%nat (fst r)
       = [CropT2Star 77 "target_resampled_denoised.nii.gz"
            "target_sc_seg_resampled.nii.gz" 75].
Proof.
  eexists. cbv zeta. split; [reflexivity|].
  destruct (preprocessing_keeps_what_it_read
              (calm_world "RPI" (1 # 2) (1 # 2))
              "t2star.nii.gz" "seg.nii.gz" "tmp" None None true _ eq_refl)
    as (H1 & _ & H2 & _).
  split; [exact H1|exact H2].
Defined.

(** X7.  The constructor enters the temporary directory (line 55) and
    leaves it again (line 92): a run that ends normally has made these two
    moves and no other; a run cut short has made the first ones of
    them. *)
Theorem preprocessing_returns_to_the_parent_directory :
  forall w target_fname sc_seg_fname tmp_dir t2_data level_fname denoising,
    let r := Preprocessing.__init__ target_fname sc_seg_fname tmp_dir
               t2_data level_fname denoising w [] in
    (forall p, snd r = Ok p -> chdirs (fst r) = [tmp_dir; ".."])
    /\ (chdirs (fst r) = [] \/ chdirs (fst r) = [tmp_dir]
        \/ chdirs (fst r) = [tmp_dir; ".."]).
Proof.
  intros w target sc tmp t2_data lvl den r.
  destruct (preprocessing_walks target sc tmp t2_data lvl den w [])
    as (p & s & E & D & O).
  fold r in E, O. cbn in E. rewrite E. split.
  - intros obj Hp. rewrite (O obj Hp), app_nil_r in D. now symmetry.
  - destruct p as [|a [|b [|c p]]]; cbn in D.
    + now left.
    + injection D as <- _. right. now left.
    + injection D as <- <- _. right. now right.
    + discriminate D.
Qed.

(** ** The return to the original space (post_processing) *)

Lemma drop_app a b : drop (String.length a) (a ++ b) = b.
Proof. induction a as [|c a IH]; [reflexivity|exact IH]. Qed.

(** The name under which the result [im] is delivered (line 180). *)
Lemma post_processing_result self w names :
  snd (FullGmSegmentation.post_processing self w []) = Ok names ->
  let pre := FullGmSegmentation.preprocessed self in
  let gm := FullGmSegmentation.gm_seg self in
  let tb := snd (fst (w_extract_fname w (FullGmSegmentation.target_fname self))) in
  let trb := snd (fst (w_extract_fname w (Preprocessing.treated_target pre))) in
  let name im := tb ++ drop (String.length trb) (file_name im) ++ ".nii.gz" in
  names = [("wm_seg", name (FullGmSegmentation.res_wm_seg gm));
           ("gm_seg", name (FullGmSegmentation.res_gm_seg gm));
           ("corrected_wm_seg", name (FullGmSegmentation.corrected_wm_seg gm))]
  /\ exists c1 c2 c3 o1 o2 o3,
      events_at [193]%nat (fst (FullGmSegmentation.post_processing self w []))
      = [Run 193 ("cp " ++ c1 ++ " ../" ++ name (FullGmSegmentation.res_wm_seg gm))
             0 o1;
         Run 193 ("cp " ++ c2 ++ " ../" ++ name (FullGmSegmentation.res_gm_seg gm))
             0 o2;
         Run 193 ("cp " ++ c3 ++ " ../"
                    ++ name (FullGmSegmentation.corrected_wm_seg gm)) 0 o3].
Proof.
  cbv zeta.
  unfold FullGmSegmentation.post_processing, FullGmSegmentation.post_process_one.
  autounfold with py. cbn.
  destruct (w_extract_fname w (FullGmSegmentation.target_fname self))
    as [[d1 tb] e1].
  destruct (w_extract_fname w
              (Preprocessing.treated_target (FullGmSegmentation.preprocessed self)))
    as [[d2 trb] e2].
  cbn.
  repeat step.
  all: intros Hp; ended_well Hp.
  all: split; [reflexivity|do 6 eexists; reflexivity].
Qed.

(** X8.  A post-processing that ends normally delivers three results,
    under the keys [wm_seg], [gm_seg] and [corrected_wm_seg] in this
    order.  Each name is the base name of the target, followed by the name
    of the result without its first [len(treated base)] characters and by
    [.nii.gz]; each result is copied under that name into the parent
    directory (line 193).  For a result named after the treated target,
    the name is the target's base name with the result's own suffix. *)
Theorem post_processing_names_the_results :
  forall self w names,
    let r := FullGmSegmentation.post_processing self w [] in
    let pre := FullGmSegmentation.preprocessed self in
    let gm := FullGmSegmentation.gm_seg self in
    let tb := snd (fst (w_extract_fname w (FullGmSegmentation.target_fname self))) in
    let trb := snd (fst (w_extract_fname w (Preprocessing.treated_target pre))) in
    let name im := tb ++ drop (String.length trb) (file_name im) ++ ".nii.gz" in
    snd r = Ok names ->
    names = [("wm_seg", name (FullGmSegmentation.res_wm_seg gm));
             ("gm_seg", name (FullGmSegmentation.res_gm_seg gm));
             ("corrected_wm_seg", name (FullGmSegmentation.corrected_wm_seg gm))]
    /\ (exists c1 c2 c3 o1 o2 o3,
           events_at [193]%nat (fst r)
           = [Run 193 ("cp " ++ c1 ++ " ../"
                         ++ name (FullGmSegmentation.res_wm_seg gm)) 0 o1;
              Run 193 ("cp " ++ c2 ++ " ../"
                         ++ name (FullGmSegmentation.res_gm_seg gm)) 0 o2;
              Run 193 ("cp " ++ c3 ++ " ../"
                         ++ name (FullGmSegmentation.corrected_wm_seg gm)) 0 o3])
    /\ (forall im suffix,
           file_name im = trb ++ suffix -> name im = tb ++ suffix ++ ".nii.gz").
Proof.
  intros self w names r pre gm tb trb name Hp.
  destruct (post_processing_result self w names Hp) as [Hn He].
  split; [exact Hn|]. split; [exact He|].
  intros im suffix Hf. unfold name. now rewrite Hf, drop_app.
Qed.

Lemma post_processing_names_the_results_witness :
  snd (FullGmSegmentation.post_processing (small_subject "prob")
         (calm_world "" (1 # 2) (1 # 2)) [])
  = Ok [("wm_seg", "t2star_res_wmseg.nii.gz");
        ("gm_seg", "t2star_res_gmseg.nii.gz");
        ("corrected_wm_seg", "t2star_corrected_wmseg.nii.gz")].
Proof.
  destruct (post_processing_names_the_results
              (small_subject "prob") (calm_world "" (1 # 2) (1 # 2)) _ eq_refl)
    as [Hn _].
  reflexivity.
Defined.

(** X9.  The cleanup threshold of line 191 is for the "prob" results only.
    With any other type no such command is run.  A command of line 191
    rewrites its input file in place, with the threshold 0.05; when the
    type is "prob" and the post-processing ends normally there are three
    of them, one for each result. *)
Theorem post_processing_thresholds_prob_results_only :
  forall self w,
    let r := FullGmSegmentation.post_processing self w [] in
    let rt := FullGmSegmentation.res_type (FullGmSegmentation.param self) in
    (rt <> "prob" -> never_at [191]%nat (fst r) = true)
    /\ (forall c st o,
           In (Run 191 c st o) (fst r) ->
           rt = "prob"
           /\ exists f, c = "sct_maths -i " ++ f ++ " -thr 0.05 -o " ++ f)
    /\ (rt = "prob" ->
        forall names, snd r = Ok names ->
                      length (events_at [191]%nat (fst r)) = 3%nat).
Proof.
  intros self w r rt. subst r rt.
  unfold FullGmSegmentation.post_processing, FullGmSegmentation.post_process_one.
  autounfold with py. cbn.
  repeat step.
  all: try prob_or_not.
  all: split; [intros Hn; first [reflexivity|contradiction]|].
  all: split;
    [ intros c st o HIn; in_trace HIn; injection HIn as; subst;
      (split; [assumption|eexists; reflexivity])
    | intros Hy names Hp; first [contradiction|discriminate Hp|reflexivity] ].
Qed.

(** X10.  Every result is resampled back (line 186) to the native spacing
    that the preprocessing kept, as a binary volume exactly when the
    output type is "binary"; a post-processing that ends normally has done
    so three times. *)
Theorem post_processing_resamples_to_the_native_spacing :
  forall self w,
    let r := FullGmSegmentation.post_processing self w [] in
    let pre := FullGmSegmentation.preprocessed self in
    (forall f b x y,
        In (ResampleImage 186 f b x y) (fst r) ->
        (b = true
         <-> FullGmSegmentation.res_type (FullGmSegmentation.param self) = "binary")
        /\ x = Preprocessing.original_px pre
        /\ y = Preprocessing.original_py pre)
    /\ (forall names, snd r = Ok names ->
                      length (events_at [186]%nat (fst r)) = 3%nat).
Proof.
  intros self w r pre. subst r pre.
  assert (Hb : forall s b, b = (s =? "binary") -> (b = true <-> s = "binary")).
  { intros s b ->. apply String.eqb_eq. }
  unfold FullGmSegmentation.post_processing, FullGmSegmentation.post_process_one.
  autounfold with py. cbn.
  remember (FullGmSegmentation.res_type (FullGmSegmentation.param self) =? "binary")
    as bin eqn:Hbin.
  apply Hb in Hbin. clear Hb.
  repeat step.
  all: split;
    [ intros f b x y HIn; in_trace HIn; injection HIn as; subst;
      (split; [exact Hbin|split; reflexivity])
    | intros names Hp; first [discriminate Hp|reflexivity] ].
Qed.

(** ** More of compute_ratio *)

Lemma find_missing (k : string) (names : list (string * string)) :
  ~ In k (map fst names) -> find (fun kv => fst kv =? k) names = None.
Proof.
  induction names as [|[k' v] names IH]; intros Hn; [reflexivity|].
  cbn in *. destruct (k' =? k) eqn:E.
  - apply String.eqb_eq in E. exfalso. apply Hn. now left.
  - apply IH. intros Hin. apply Hn. now right.
Qed.

Lemma find_present (k : string) (names : list (string * string)) :
  In k (map fst names) ->
  exists v, find (fun kv => fst kv =? k) names = Some (k, v).
Proof.
  induction names as [|[k' v] names IH]; intros Hin; [contradiction|].
  cbn in *. destruct (k' =? k) eqn:E.
  - apply String.eqb_eq in E. subst k'. now exists v.
  - apply IH. destruct Hin as [Hk|Hin]; [|exact Hin].
    apply String.eqb_neq in E. contradiction.
Qed.

Section MoreRatioFacts.
Context {F : Type} `{PyFloat F}.
Import FullGmSegmentation.

(** The errors of one pair of lines; no line is written on the way. *)
Lemma ratio_line_outcome gm_line wm_line w h :
  fst (ratio_line gm_line wm_line w h) = h
  /\ forall e, snd (ratio_line gm_line wm_line w h) = Raise e ->
               e = ValueError \/ e = AssertionError \/ e = ZeroDivisionError.
Proof.
  unfold ratio_line, bind, lift, py_float, truediv, unpack2, ret, raise.
  destruct (split "," gm_line) as [|i [|a [|c g]]]; cbn.
  1,2,4: split; [reflexivity|intros e [= <-]; now left].
  destruct (split "," wm_line) as [|j [|b [|c l]]]; cbn.
  1,2,4: split; [reflexivity|intros e [= <-]; now left].
  destruct (i =? j); cbn.
  2: split; [reflexivity|intros e [= <-]; right; now left].
  destruct (float a); cbn.
  2: split; [reflexivity|intros e [= <-]; now left].
  destruct (float b) as [x|]; cbn.
  2: split; [reflexivity|intros e [= <-]; now left].
  destruct (is_zero x); cbn.
  - split; [reflexivity|intros e [= <-]; right; now right].
  - split; [reflexivity|intros e Hr; discriminate Hr].
Qed.

Lemma ratio_loop_cons g l rest w h :
  ratio_loop ((g, l) :: rest) w h
  = match ratio_line g l w h with
    | (h1, Ok text) =>
        ratio_loop rest w (h1 ++ [Write 223 "ratio.txt" text])%list
    | (h1, Raise e) => (h1, Raise e)
    end.
Proof.
  cbn [ratio_loop]. unfold bind at 1.
  destruct (ratio_line g l w h) as [h1 [text|e]]; reflexivity.
Qed.

(** X11.  The loop of lines 219-223 writes only to [ratio.txt], one line
    for each pair it has gone through: as many lines as pairs when it ends
    normally, fewer when it stops on an error, which is then a
    [ValueError] (a line without exactly one comma, or an area that is not
    a number), an [AssertionError] or a [ZeroDivisionError]. *)
Theorem ratio_loop_writes_one_line_per_pair :
  forall pairs w h,
  exists recs,
    fst (ratio_loop pairs w h) = (h ++ recs)%list
    /\ Forall (fun e => exists text, e = Write 223 "ratio.txt" text) recs
    /\ match snd (ratio_loop pairs w h) with
       | Ok _ => length recs = length pairs
       | Raise e =>
           (length recs < length pairs)%nat
           /\ (e = ValueError \/ e = AssertionError \/ e = ZeroDivisionError)
       end.
Proof.
  induction pairs as [|[g l] rest IH]; intros w h.
  - exists []. cbn. rewrite app_nil_r. repeat split. constructor.
  - rewrite ratio_loop_cons.
    destruct (ratio_line_outcome g l w h) as [Hf He].
    destruct (ratio_line g l w h) as [h1 [text|e]]; cbn [fst snd] in *; subst h1.
    + destruct (IH w (h ++ [Write 223 "ratio.txt" text])%list)
        as (recs & Hr & Hw & Hs).
      exists (Write 223 "ratio.txt" text :: recs). split; [|split].
      * rewrite Hr, <- app_assoc. reflexivity.
      * constructor; [now exists text|exact Hw].
      * destruct (snd (ratio_loop rest w (h ++ [Write 223 "ratio.txt" text])%list));
          cbn [length]; [lia|].
        destruct Hs as [Hl Hc]. split; [lia|exact Hc].
    + exists []. rewrite app_nil_r. split; [reflexivity|].
      split; [constructor|]. split; [cbn; lia|now apply He].
Qed.

(** X12.  [self.res_names] lacks a name.  Without [gm_seg] nothing is
    run and a [KeyError] is raised at line 202.  With [gm_seg] but without
    [corrected_wm_seg], when the commands succeed, the gray matter is
    measured first (lines 202-203) and the [KeyError] comes at line 205;
    no file is read and nothing is written. *)
Theorem compute_ratio_needs_both_names :
  forall names w h,
    (~ In "gm_seg" (map fst names) ->
     compute_ratio names w h = (h, Raise (KeyError "gm_seg")))
    /\ (In "gm_seg" (map fst names) ->
        ~ In "corrected_wm_seg" (map fst names) ->
        (forall t c, fst (w_run w t c) = 0%Z) ->
        snd (compute_ratio names w h) = Raise (KeyError "corrected_wm_seg")
        /\ exists gm o1 o2,
            fst (compute_ratio names w h)
            = (h ++ [Run 202 ("sct_process_segmentation -i " ++ gm
                                ++ " -p csa -o gm_csa ") 0 o1;
                     Run 203 "mv csa.txt gm_csa.txt" 0 o2])%list).
Proof.
  intros names w h. split.
  - intros Hn. unfold compute_ratio. rewrite (find_missing _ _ Hn). reflexivity.
  - intros Hg Hn Hrun. unfold compute_ratio.
    destruct (find_present _ _ Hg) as [gm ->]. rewrite (find_missing _ _ Hn).
    autounfold with py. cbn.
    repeat step.
    all: commands_succeed Hrun.
    split; [reflexivity|].
    exists gm. do 2 eexists. rewrite <- app_assoc. reflexivity.
Qed.

Lemma ratio_loop_no_KeyError pairs w h k :
  snd (ratio_loop pairs w h) <> Raise (KeyError k).
Proof.
  revert h. induction pairs as [|[g l] rest IH]; intros h.
  - discriminate.
  - rewrite ratio_loop_cons.
    destruct (ratio_line_outcome g l w h) as [_ He].
    destruct (ratio_line g l w h) as [h1 [text|e]]; cbn [snd] in *.
    + apply IH.
    + intros [= ->]. destruct (He _ eq_refl) as [E|[E|E]]; discriminate E.
Qed.

Lemma preserves_ratio_loop (P : event -> Prop) pairs :
  (forall text, P (Write 223 "ratio.txt" text)) -> preserves P (ratio_loop pairs).
Proof.
  intros Hw. induction pairs as [|[g l] rest IH]; intros w h Hh.
  - exact Hh.
  - rewrite ratio_loop_cons.
    destruct (ratio_line_outcome g l w h) as [Hf _].
    destruct (ratio_line g l w h) as [h1 [text|e]]; cbn [fst] in *; subst h1.
    + apply IH. apply Forall_app. split; [exact Hh|]. constructor; [apply Hw|constructor].
    + exact Hh.
Qed.

(** X13.  After a post-processing that ended normally, [compute_ratio]
    finds the two names it looks up: it never raises a [KeyError], and
    what it measures (lines 202 and 205) are the gray-matter result and
    the corrected white-matter result, under the names they were delivered
    with. *)
Theorem compute_ratio_after_post_processing :
  forall self w names,
    let r := post_processing self w [] in
    let tb := snd (fst (w_extract_fname w (target_fname self))) in
    let trb := snd (fst (w_extract_fname w
                           (Preprocessing.treated_target (preprocessed self)))) in
    let name im := tb ++ drop (String.length trb) (file_name im) ++ ".nii.gz" in
    let tr := fst (compute_ratio names w (fst r)) in
    snd r = Ok names ->
    (forall k, snd (compute_ratio names w (fst r)) <> Raise (KeyError k))
    /\ (forall c st out,
           In (Run 202 c st out) tr ->
           c = "sct_process_segmentation -i " ++ name (res_gm_seg (gm_seg self))
                 ++ " -p csa -o gm_csa ")
    /\ (forall c st out,
           In (Run 205 c st out) tr ->
           c = "sct_process_segmentation -i "
                 ++ name (corrected_wm_seg (gm_seg self)) ++ " -p csa -o wm_csa ").
Proof.
  intros self w names r tb trb name tr Hp.
  destruct (post_processing_result self w names Hp) as [Hn _].
  fold tb trb name in Hn.
  set (P := fun e =>
              command_at 202 ("sct_process_segmentation -i "
                                ++ name (res_gm_seg (gm_seg self))
                                ++ " -p csa -o gm_csa ") e
              /\ command_at 205 ("sct_process_segmentation -i "
                                   ++ name (corrected_wm_seg (gm_seg self))
                                   ++ " -p csa -o wm_csa ") e).
  assert (Hpp : preserves P (post_processing self)).
  { unfold post_processing, post_process_one.
    repeat preserves_step.
    all: split; intros c' st' out' E; discriminate E. }
  assert (Hc : preserves P
                 (compute_ratio
                    [("wm_seg", name (res_wm_seg (gm_seg self)));
                     ("gm_seg", name (res_gm_seg (gm_seg self)));
                     ("corrected_wm_seg", name (corrected_wm_seg (gm_seg self)))])).
  { unfold compute_ratio. cbn [find fst snd String.eqb Ascii.eqb Bool.eqb].
    repeat first
      [ lazymatch goal with
        | |- preserves _ (bind (ret ?a) ?k) => change (preserves P (k a)); cbv beta
        end
      | preserves_step ].
    all: try (apply preserves_ratio_loop; intros text).
    all: split; intros c' st' out' E;
      first [discriminate E | (injection E as; subst; reflexivity)]. }
  assert (Hall : Forall P tr).
  { subst tr. rewrite Hn. apply Hc. apply Hpp. constructor. }
  rewrite Forall_forall in Hall.
  split; [|split].
  - intros k. rewrite Hn. unfold compute_ratio.
    cbn [find fst snd String.eqb Ascii.eqb Bool.eqb].
    generalize (fst r). intros h.
    autounfold with py. cbn.
    repeat step.
    all: try discriminate.
    apply ratio_loop_no_KeyError.
  - intros c st out Hin. exact (proj1 (Hall _ Hin) c st out eq_refl).
  - intros c st out Hin. exact (proj2 (Hall _ Hin) c st out eq_refl).
Qed.

End MoreRatioFacts.

Lemma compute_ratio_needs_both_names_witness :
  snd (@FullGmSegmentation.compute_ratio Q QFloat.pyfloat
         [("gm_seg", "t2star_res_gmseg.nii.gz")]
         (calm_world "" (1 # 2) (1 # 2)) [])
  = Raise (KeyError "corrected_wm_seg").
Proof.
  assert (Hg : In "gm_seg" (map fst [("gm_seg", "t2star_res_gmseg.nii.gz")]))
    by (now left).
  assert (Hn : ~ In "corrected_wm_seg"
                    (map fst [("gm_seg", "t2star_res_gmseg.nii.gz")])).
  { intros [E|[]]. discriminate E. }
  refine (proj1 (proj2 (@compute_ratio_needs_both_names Q QFloat.pyfloat
                          [("gm_seg", "t2star_res_gmseg.nii.gz")]
                          (calm_world "" (1 # 2) (1 # 2)) []) Hg Hn _)).
  intros t c. reflexivity.
Defined.

Lemma compute_ratio_after_post_processing_witness :
  exists c st out,
    In (Run 202 c st out)
       (fst (@FullGmSegmentation.compute_ratio Q QFloat.pyfloat
               [("wm_seg", "t2star_res_wmseg.nii.gz");
                ("gm_seg", "t2star_res_gmseg.nii.gz");
                ("corrected_wm_seg", "t2star_corrected_wmseg.nii.gz")]
               (calm_world "" (1 # 2) (1 # 2))
               (fst (FullGmSegmentation.post_processing (small_subject "prob")
                       (calm_world "" (1 # 2) (1 # 2)) []))))
    /\ c = "sct_process_segmentation -i t2star_res_gmseg.nii.gz -p csa -o gm_csa ".
Proof.
  assert (Hin : exists c st out,
             In (Run 202 c st out)
                (fst (@FullGmSegmentation.compute_ratio Q QFloat.pyfloat
                        [("wm_seg", "t2star_res_wmseg.nii.gz");
                         ("gm_seg", "t2star_res_gmseg.nii.gz");
                         ("corrected_wm_seg", "t2star_corrected_wmseg.nii.gz")]
                        (calm_world "" (1 # 2) (1 # 2))
                        (fst (FullGmSegmentation.post_processing
                                (small_subject "prob")
                                (calm_world "" (1 # 2) (1 # 2)) []))))).
  { do 3 eexists. vm_compute. repeat first [left; reflexivity | right]. }
  destruct Hin as (c & st & out & Hin).
  exists c, st, out. split; [exact Hin|].
  exact (proj1 (proj2 (@compute_ratio_after_post_processing Q QFloat.pyfloat
                         (small_subject "prob") (calm_world "" (1 # 2) (1 # 2))
                         _ eq_refl)) c st out Hin).
Defined.

(** ** Area files of different lengths *)

Lemma run_succeeds l c w h :
  fst (w_run w (length h) c) = 0%Z ->
  run l c w h
  = ((h ++ [Run l c 0 (snd (w_run w (length h) c))])%list,
     Ok (0%Z, snd (w_run w (length h) c))).
Proof.
  unfold run, run_with.
  destruct (w_run w (length h) c) as [st out]. cbn. intros ->. reflexivity.
Qed.

Section RatioOnFiles.
Context {F : Type} `{PyFloat F}.
Import FullGmSegmentation.

Lemma ratio_records_at_223 gm wm :
  events_at [223]%nat (ratio_records gm wm) = ratio_records gm wm.
Proof.
  unfold ratio_records, events_at.
  induction (combine gm wm) as [|p l IH]; [reflexivity|].
  cbn. now rewrite IH.
Qed.

(** C10.  The two files of areas have different numbers of lines, and the
    lines of their common prefix read as records that agree on the index
    (with a white-matter area that is not zero); nothing is asked of the
    lines after the common prefix.  When both result names are there and
    the commands succeed, [compute_ratio] ends normally: it writes the
    records of the common prefix, min(len_gm, len_wm) of them, which is
    fewer than the longer file has lines, and no error comes from the
    lines left over. *)
Theorem compute_ratio_truncates_silently :
  forall names w gm_lines wm_lines gm wm,
    In "gm_seg" (map fst names) ->
    In "corrected_wm_seg" (map fst names) ->
    (forall t c, fst (w_run w t c) = 0%Z) ->
    (forall t, w_readlines w t "gm_csa.txt" = gm_lines) ->
    (forall t, w_readlines w t "wm_csa.txt" = wm_lines) ->
    length gm_lines <> length wm_lines ->
    let n := Nat.min (length gm_lines) (length wm_lines) in
    Forall2 reads_as (firstn n gm_lines) gm ->
    Forall2 reads_as (firstn n wm_lines) wm ->
    aligned gm wm ->
    let r := compute_ratio names w [] in
    snd r = Ok tt
    /\ events_at [223]%nat (fst r) = ratio_records gm wm
    /\ length (events_at [223]%nat (fst r)) = n
    /\ (n < Nat.max (length gm_lines) (length wm_lines))%nat.
Proof.
  intros names w gm_lines wm_lines gm wm Hgm Hwm Hrun Rg Rw Hlen n Hg Hw Hal r.
  assert (Hr : exists h,
             r = ((h ++ ratio_records gm wm)%list, Ok tt)
             /\ events_at [223]%nat h = []).
  { subst r. unfold compute_ratio.
    destruct (find_present _ _ Hgm) as [g ->].
    destruct (find_present _ _ Hwm) as [c ->].
    cbn [snd].
    erewrite bind_ok by reflexivity.
    erewrite bind_ok by (apply run_succeeds; apply Hrun).
    erewrite bind_ok by (apply run_succeeds; apply Hrun).
    erewrite bind_ok by reflexivity.
    erewrite bind_ok by (apply run_succeeds; apply Hrun).
    erewrite bind_ok by (apply run_succeeds; apply Hrun).
    erewrite bind_ok by reflexivity.
    erewrite bind_ok by reflexivity.
    rewrite Rg, Rw, (combine_firstn_min gm_lines wm_lines).
    fold n. rewrite (ratio_loop_aligned _ _ gm wm w _ Hg Hw Hal).
    eexists. split; [reflexivity|]. reflexivity. }
  destruct Hr as (h & -> & Hh). cbn [fst snd].
  assert (He : events_at [223]%nat (h ++ ratio_records gm wm)
               = ratio_records gm wm).
  { unfold events_at in *. rewrite filter_app, Hh. apply ratio_records_at_223. }
  split; [reflexivity|]. split; [exact He|]. split.
  - rewrite He. unfold ratio_records.
    rewrite length_map, length_combine.
    rewrite <- (Forall2_length_eq _ _ _ Hg), <- (Forall2_length_eq _ _ _ Hw).
    rewrite !length_firstn. subst n. lia.
  - subst n. lia.
Qed.

End RatioOnFiles.

(** C10 at three gray-matter lines against one white-matter line; the two
    lines left over are not records at all. *)
Lemma compute_ratio_truncates_silently_witness :
  let r := @FullGmSegmentation.compute_ratio Q QFloat.pyfloat
             [("wm_seg", "t2star_res_wmseg.nii.gz");
              ("gm_seg", "t2star_res_gmseg.nii.gz");
              ("corrected_wm_seg", "t2star_corrected_wmseg.nii.gz")]
             (world_reading ["0,10" ++ nl; "no record"; "2;30,7,"]
                            ["0,5" ++ nl] (calm_world "" 1 1)) [] in
  snd r = Ok tt
  /\ events_at [223]%nat (fst r) = [Write 223 "ratio.txt" ("0,2.0" ++ nl)].
Proof.
  destruct (@compute_ratio_truncates_silently Q QFloat.pyfloat
              [("wm_seg", "t2star_res_wmseg.nii.gz");
               ("gm_seg", "t2star_res_gmseg.nii.gz");
               ("corrected_wm_seg", "t2star_corrected_wmseg.nii.gz")]
              (world_reading ["0,10" ++ nl; "no record"; "2;30,7,"]
                             ["0,5" ++ nl] (calm_world "" 1 1))
              ["0,10" ++ nl; "no record"; "2;30,7,"] ["0,5" ++ nl]
              [("0", 10)] [("0", 5)])
    as (Hok & Hev & _).
  - cbn. tauto.
  - cbn. tauto.
  - intros t c. reflexivity.
  - intros t. reflexivity.
  - intros t. reflexivity.
  - cbn. lia.
  - repeat constructor; eexists; split; reflexivity.
  - repeat constructor; eexists; split; reflexivity.
  - repeat constructor.
  - split; [exact Hok|exact Hev].
Defined.

(** ** More of the validation *)

Section Returns.
Context {A B : Type}.

Lemma returns_ret w (P : A -> Prop) a : P a -> returns w P (ret a).
Proof. intros Ha h b [= <-]. exact Ha. Qed.

Lemma returns_raise w (P : A -> Prop) e : returns w P (raise e).
Proof. intros h b Hb. discriminate Hb. Qed.

Lemma returns_bind w (P : B -> Prop) (m : M A) (k : A -> M B) :
  (forall a, returns w P (k a)) -> returns w P (bind m k).
Proof.
  intros Hk h b. unfold bind.
  destruct (m w h) as [h1 [a|e]]; [apply Hk|discriminate].
Qed.

Lemma returns_bind_with w (Q : A -> Prop) (P : B -> Prop) (m : M A)
  (k : A -> M B) :
  returns w Q m -> (forall a, Q a -> returns w P (k a)) ->
  returns w P (bind m k).
Proof.
  intros Hm Hk h b. unfold bind.
  pose proof (Hm h) as Hq.
  destruct (m w h) as [h1 [a|e]]; [|discriminate].
  apply Hk. now apply Hq.
Qed.

Lemma returns_bind_extract w (P : B -> Prop) f
  (k : string * string * string -> M B) :
  returns w P (k (w_extract_fname w f)) ->
  returns w P (bind (extract_fname f) k).
Proof. intros Hk h b. exact (Hk h b). Qed.

End Returns.

Ltac returns_step :=
  lazymatch goal with
  | |- returns _ _ (bind (extract_fname _) _) =>
      apply returns_bind_extract; cbv beta
  | |- returns _ _ (bind _ _) => apply returns_bind; intros
  | |- returns _ _ (ret _) => apply returns_ret
  | |- returns _ _ (raise _) => apply returns_raise
  | |- returns _ _ (match ?x with _ => _ end) => destruct x eqn:?
  | |- returns _ _ (let _ := _ in _) => cbv zeta
  end.

(** What the validation writes, and where. *)
Lemma validation_report self :
  let rt := FullGmSegmentation.res_type (FullGmSegmentation.param self) in
  preserves
    (fun e =>
       match e with
       | Write l f _ =>
           (exists base, f = "../../" ++ "dice_" ++ base ++ "_" ++ rt ++ ".txt")
           /\ (l = 332%nat -> rt = "prob")
       | ResampleImage _ f b x y =>
           (f = "ref_gm_seg.nii.gz" \/ f = "ref_wm_seg.nii.gz")
           /\ b = true
           /\ x = Preprocessing.resample_to (FullGmSegmentation.preprocessed self)
           /\ y = Preprocessing.resample_to (FullGmSegmentation.preprocessed self)
       | _ => True
       end)
    (FullGmSegmentation.validation self).
Proof.
  intros rt. subst rt. unfold FullGmSegmentation.validation.
  repeat preserves_step.
  all: try exact I.
  all: try prob_or_not.
  all: first
         [ split; [eexists; reflexivity|intros Hl; first [assumption|discriminate Hl]]
         | split; [first [now left|now right]|repeat split] ].
Qed.

Lemma validation_returns self w :
  returns w
    (fun names =>
       names
       = ("dice_" ++ snd (fst (w_extract_fname w (FullGmSegmentation.target_fname self)))
            ++ "_" ++ FullGmSegmentation.res_type (FullGmSegmentation.param self)
            ++ ".txt",
          "hd_" ++ snd (fst (w_extract_fname w (FullGmSegmentation.target_fname self)))
            ++ "_" ++ FullGmSegmentation.res_type (FullGmSegmentation.param self)
            ++ ".txt"))
    (FullGmSegmentation.validation self).
Proof.
  unfold FullGmSegmentation.validation.
  repeat returns_step.
  all: reflexivity.
Qed.

(** X14.  A validation that ends normally returns the names of its two
    reports, [dice_<target>_<type>.txt] and [hd_<target>_<type>.txt].
    Everything it writes goes to the first one, two directories up; the
    warning that the results were binarised (line 332) is written only
    when the type is "prob". *)
Theorem validation_names_its_reports :
  forall self w,
    let rt := FullGmSegmentation.res_type (FullGmSegmentation.param self) in
    let base :=
      snd (fst (w_extract_fname w (FullGmSegmentation.target_fname self))) in
    let r := FullGmSegmentation.validation self w [] in
    (forall names,
        snd r = Ok names ->
        names = ("dice_" ++ base ++ "_" ++ rt ++ ".txt",
                 "hd_" ++ base ++ "_" ++ rt ++ ".txt"))
    /\ (forall l f text,
           In (Write l f text) (fst r) ->
           (exists b, f = "../../" ++ "dice_" ++ b ++ "_" ++ rt ++ ".txt")
           /\ (l = 332%nat -> rt = "prob")).
Proof.
  intros self w rt base r. split.
  - intros names Hp. exact (validation_returns self w [] names Hp).
  - intros l f text Hin.
    pose proof (validation_report self w [] (Forall_nil _)) as Hall.
    rewrite Forall_forall in Hall. exact (Hall _ Hin).
Qed.

(** X15.  The two references are resampled (lines 255 and 263) as binary
    volumes, to the resolution of the processing space, whatever the type
    of the results. *)
Theorem validation_resamples_the_references_as_binary :
  forall self w l f b x y,
    In (ResampleImage l f b x y) (fst (FullGmSegmentation.validation self w [])) ->
    (f = "ref_gm_seg.nii.gz" \/ f = "ref_wm_seg.nii.gz")
    /\ b = true
    /\ x = Preprocessing.resample_to (FullGmSegmentation.preprocessed self)
    /\ y = Preprocessing.resample_to (FullGmSegmentation.preprocessed self).
Proof.
  intros self w l f b x y Hin.
  pose proof (validation_report self w [] (Forall_nil _)) as Hall.
  rewrite Forall_forall in Hall. exact (Hall _ Hin).
Qed.

Lemma validation_resamples_the_references_as_binary_witness :
  (true = true) /\ (3 # 10) = Preprocessing.resample_to
                                (FullGmSegmentation.preprocessed (small_subject "binary")).
Proof.
  assert (Hin : In (ResampleImage 255 "ref_gm_seg.nii.gz" true (3 # 10) (3 # 10))
                   (fst (FullGmSegmentation.validation (small_subject "binary")
                           (calm_world "0.9" (1 # 2) (1 # 2)) []))).
  { vm_compute. repeat first [left; reflexivity | right]. }
  destruct (validation_resamples_the_references_as_binary _ _ _ _ _ _ _ Hin)
    as (_ & Hb & Hx & _).
  split; [exact Hb|exact Hx].
Defined.

(** X16.  The validation enters its directory (line 249) and leaves it
    again (line 346): a run that ends normally has made these two moves
    and no other; a run cut short has made the first ones of them. *)
Theorem validation_returns_to_the_parent_directory :
  forall self w,
    let r := FullGmSegmentation.validation self w [] in
    (forall names, snd r = Ok names -> chdirs (fst r) = ["validation"; ".."])
    /\ (chdirs (fst r) = [] \/ chdirs (fst r) = ["validation"]
        \/ chdirs (fst r) = ["validation"; ".."]).
Proof.
  intros self w r.
  destruct (validation_walks self w []) as (p & s & E & D & O).
  fold r in E, O. cbn in E. rewrite E. split.
  - intros obj Hp. rewrite (O obj Hp), app_nil_r in D. now symmetry.
  - destruct p as [|a [|b [|c p]]]; cbn in D.
    + now left.
    + injection D as <- _. right. now left.
    + injection D as <- <- _. right. now right.
    + discriminate D.
Qed.

(** ** The pipeline *)

Lemma pipeline_walks gmseg self :
  (forall a b c, walks [] (gmseg a b c)) ->
  walks (match Pipeline.ref_gm_seg_fname self with
         | Some _ => [Pipeline.tmp_dir self; ".."; Pipeline.tmp_dir self; "..";
                      Pipeline.tmp_dir self; "validation"; ".."; ".."]
         | None => [Pipeline.tmp_dir self; ".."; Pipeline.tmp_dir self; ".."]
         end)
        (Pipeline.segmentation_pipeline gmseg self).
Proof.
  intros Hg. unfold Pipeline.segmentation_pipeline.
  destruct (Pipeline.ref_gm_seg_fname self) as [ref|] eqn:Href.
  all: repeat first
         [ apply Hg
         | eapply walks_bind;
           [apply preprocessing_walks|intros|]
         | eapply walks_bind;
           [apply validation_walks|intros|]
         | eapply walks_bind;
           [apply post_processing_walks|intros|]
         | walks_step ].
Qed.

(** X17.  The pipeline moves into the temporary directory and out of it
    again, in the preprocessing, around the segmentation and the
    validation, and leaves it at the end: a pipeline that ends normally is
    back where it started, provided the segmentation method changes no
    directory. *)
Theorem pipeline_returns_to_the_starting_directory :
  forall gmseg self w,
    (forall a b c, walks [] (gmseg a b c)) ->
    let r := Pipeline.segmentation_pipeline gmseg self w [] in
    let tmp := Pipeline.tmp_dir self in
    forall o,
      snd r = Ok o ->
      chdirs (fst r)
      = match Pipeline.ref_gm_seg_fname self with
        | Some _ => [tmp; ".."; tmp; ".."; tmp; "validation"; ".."; ".."]
        | None => [tmp; ".."; tmp; ".."]
        end.
Proof.
  intros gmseg self w Hg r tmp o Hp.
  destruct (pipeline_walks gmseg self Hg w []) as (p & s & E & D & O).
  fold r in E, O. cbn in E. rewrite E.
  rewrite (O o Hp), app_nil_r in D. now symmetry.
Qed.

Lemma pipeline_returns_to_the_starting_directory_witness :
  chdirs (fst (Pipeline.segmentation_pipeline small_method
                 (small_pipeline "prob" (Some "manual_gm.nii.gz"))
                 (calm_world "0.9" (1 # 2) (1 # 2)) []))
  = ["tmp_t2star"; ".."; "tmp_t2star"; ".."; "tmp_t2star"; "validation"; "..";
     ".."].
Proof.
  assert (Hg : forall a b c, walks [] (small_method a b c)).
  { intros a b c. apply walks_ret. }
  assert (Hok : exists o,
             snd (Pipeline.segmentation_pipeline small_method
                    (small_pipeline "prob" (Some "manual_gm.nii.gz"))
                    (calm_world "0.9" (1 # 2) (1 # 2)) []) = Ok o).
  { eexists. vm_compute. reflexivity. }
  destruct Hok as [o Ho].
  exact (pipeline_returns_to_the_starting_directory small_method
           (small_pipeline "prob" (Some "manual_gm.nii.gz"))
           (calm_world "0.9" (1 # 2) (1 # 2)) Hg o Ho).
Defined.

Lemma preprocessing_outside_validation target sc tmp t2_data lvl den :
  preserves (fun e => validation_lines e = false)
            (Preprocessing.__init__ target sc tmp t2_data lvl den).
Proof.
  unfold Preprocessing.__init__.
  repeat preserves_step.
  all: reflexivity.
Qed.

Lemma post_processing_outside_validation self :
  preserves (fun e => validation_lines e = false)
            (FullGmSegmentation.post_processing self).
Proof.
  unfold FullGmSegmentation.post_processing, FullGmSegmentation.post_process_one.
  repeat preserves_step.
  all: reflexivity.
Qed.

(** X18.  The validation is for the runs that have a reference.  Without
    one, no step of the validation or of its preparation (lines 159-165
    and 230-347) is taken, provided the segmentation method takes none,
    and the names of the reports stay at [None].  With one, a pipeline
    that ends normally keeps the names that the validation returned. *)
Theorem pipeline_validates_against_a_reference_only :
  forall gmseg self w,
    let r := Pipeline.segmentation_pipeline gmseg self w [] in
    (Pipeline.ref_gm_seg_fname self = None ->
     (forall a b c, preserves (fun e => validation_lines e = false) (gmseg a b c)) ->
     Forall (fun e => validation_lines e = false) (fst r))
    /\ (forall o,
           snd r = Ok o ->
           Pipeline.names o
           = match Pipeline.ref_gm_seg_fname self with
             | Some _ =>
                 let base :=
                   snd (fst (w_extract_fname w (Pipeline.target_fname self))) in
                 let rt := FullGmSegmentation.res_type (Pipeline.param self) in
                 Some ("dice_" ++ base ++ "_" ++ rt ++ ".txt",
                       "hd_" ++ base ++ "_" ++ rt ++ ".txt")
             | None => None
             end).
Proof.
  intros gmseg self w r. split.
  - intros Href Hg. subst r. unfold Pipeline.segmentation_pipeline.
    rewrite Href.
    assert (Hall : preserves (fun e => validation_lines e = false)
              (pre <- Preprocessing.__init__ (Pipeline.target_fname self)
                        (Pipeline.sc_seg_fname self) (Pipeline.tmp_dir self)
                        (Pipeline.t2_data self) (Pipeline.level_fname self)
                        (Pipeline.target_denoising self) ;;
               chdir 148 (Pipeline.tmp_dir self) ;;
               (let level_to_use :=
                  match Preprocessing.level_fname pre with
                  | Some l => Some l
                  | None => None
                  end in
                gm <- gmseg (Preprocessing.treated_target pre) level_to_use
                        (Pipeline.param self) ;;
                names <- ret None ;;
                res <- FullGmSegmentation.post_processing
                         (Pipeline.methods_self self pre gm) ;;
                chdir 170 ".." ;;
                ret {| Pipeline.preprocessed := pre;
                       Pipeline.level_to_use := level_to_use;
                       Pipeline.gm_seg := gm;
                       Pipeline.names := names; Pipeline.res_names := res |}))).
    { repeat first
        [ apply preprocessing_outside_validation
        | apply post_processing_outside_validation
        | apply Hg
        | apply preserves_bind; [|intros]
        | preserves_step ].
      all: reflexivity. }
    apply Hall. constructor.
  - intros o Hp.
    assert (Hr : returns w
              (fun o =>
                 Pipeline.names o
                 = match Pipeline.ref_gm_seg_fname self with
                   | Some _ =>
                       Some ("dice_"
                               ++ snd (fst (w_extract_fname w (Pipeline.target_fname self)))
                               ++ "_" ++ FullGmSegmentation.res_type (Pipeline.param self)
                               ++ ".txt",
                             "hd_"
                               ++ snd (fst (w_extract_fname w (Pipeline.target_fname self)))
                               ++ "_" ++ FullGmSegmentation.res_type (Pipeline.param self)
                               ++ ".txt")
                   | None => None
                   end)
              (Pipeline.segmentation_pipeline gmseg self)).
    { unfold Pipeline.segmentation_pipeline.
      destruct (Pipeline.ref_gm_seg_fname self) as [ref|] eqn:Href.
      - apply returns_bind; intros pre.
        apply returns_bind; intros _.
        cbv zeta.
        apply returns_bind; intros gm.
        apply returns_bind_with with
          (Q := fun names =>
                  names
                  = Some ("dice_"
                            ++ snd (fst (w_extract_fname w (Pipeline.target_fname self)))
                            ++ "_" ++ FullGmSegmentation.res_type (Pipeline.param self)
                            ++ ".txt",
                          "hd_"
                            ++ snd (fst (w_extract_fname w (Pipeline.target_fname self)))
                            ++ "_" ++ FullGmSegmentation.res_type (Pipeline.param self)
                            ++ ".txt")).
        + apply returns_bind; intros _.
          apply returns_bind_extract. cbv beta.
          destruct (w_extract_fname w ref) as [[? ref_name] ?].
          apply returns_bind_extract. cbv beta.
          destruct (w_extract_fname w ref) as [[? ?] ref_ext].
          apply returns_bind; intros _.
          apply returns_bind_extract. cbv beta.
          destruct (w_extract_fname w (Pipeline.sc_seg_fname self))
            as [[? sc_name] ?].
          apply returns_bind_extract. cbv beta.
          destruct (w_extract_fname w (Pipeline.sc_seg_fname self))
            as [[? ?] sc_ext].
          apply returns_bind; intros _.
          apply returns_bind; intros _.
          eapply returns_bind_with; [apply validation_returns|].
          intros v Hv. apply returns_ret. exact (f_equal Some Hv).
        + intros names Hn. cbv beta in Hn.
          apply returns_bind; intros res.
          apply returns_bind; intros _.
          apply returns_ret. exact Hn.
      - apply returns_bind; intros pre.
        apply returns_bind; intros _.
        cbv zeta.
        apply returns_bind; intros gm.
        apply returns_bind_with with (Q := fun names => names = None);
          [apply returns_ret; reflexivity|].
        intros names ->.
        apply returns_bind; intros res.
        apply returns_bind; intros _.
        apply returns_ret. reflexivity. }
    exact (Hr [] o Hp).
Qed.

Lemma pipeline_validates_against_a_reference_only_witness :
  Forall (fun e => validation_lines e = false)
         (fst (Pipeline.segmentation_pipeline small_method
                 (small_pipeline "prob" None)
                 (calm_world "0.9" (1 # 2) (1 # 2)) [])).
Proof.
  refine (proj1 (pipeline_validates_against_a_reference_only small_method
                   (small_pipeline "prob" None)
                   (calm_world "0.9" (1 # 2) (1 # 2))) eq_refl _).
  intros a b c. apply preserves_ret.
Defined.

(** ** The command line (main) *)

(** One step of a block that ended normally. *)
Ltac went_on H :=
  repeat match type of H with
         | Main.bindr ?r _ = Ok _ =>
             let v := fresh "v" in
             let E := fresh "E" in
             destruct r as [v|?] eqn:E; cbn [Main.bindr] in H;
             [|discriminate H]
         end.

(** What an optional argument leaves in its variable. *)
Lemma if_in_Ok k args x v :
  Main.if_in k args Ok x = Ok v ->
  v = match Main.get k args with Some a => a | None => x end.
Proof.
  unfold Main.if_in. destruct (Main.get k args); intros H; now injection H.
Qed.

Lemma if_in_Ok_total k args x e : Main.if_in k args Ok x <> Raise e.
Proof. unfold Main.if_in. destruct (Main.get k args); discriminate. Qed.

Lemma if_in_flag int k args x v :
  Main.if_in k args (Main.flag int) x = Ok v ->
  match Main.get k args with
  | Some a => exists z, int a = Ok z /\ v = Main.Bool (Main.bool_of_int z)
  | None => v = x
  end.
Proof.
  unfold Main.if_in, Main.flag.
  destruct (Main.get k args) as [a|]; [|intros H; now injection H].
  destruct (int a) as [z|e]; cbn; [|discriminate].
  intros H. exists z. split; [reflexivity|now injection H].
Qed.

Lemma if_in_flag_raises int k args x e :
  Main.if_in k args (Main.flag int) x = Raise e ->
  exists a, Main.get k args = Some a /\ int a = Raise e.
Proof.
  unfold Main.if_in, Main.flag.
  destruct (Main.get k args) as [a|]; [|discriminate].
  destruct (int a) as [z|e0] eqn:Ia; cbn; [discriminate|].
  intros H. exists a. split; [reflexivity|]. injection H as <-. exact Ia.
Qed.

(** X19.  Outside the debug mode, a command line that gives neither a
    level file nor T2 data (no [-l] and no [-t2], or [None] for them) leaves
    [use_levels] at [False] and [weight_gamma] at [0], whatever
    [-use-levels] and [-weight] say.  When one of the two is given, the
    weight is the value of [-weight] or else the default, and [use_levels]
    is the truth value of the integer of [-use-levels] or else the
    default. *)
Theorem main_switches_the_levels_off_without_level_data :
  forall int p args r,
    Main.debug p = false ->
    Main.main int p args = Ok r ->
    let given k :=
      exists v, Main.get k args = Some v /\ v <> Main.NoneValue in
    (~ given "-l" -> ~ given "-t2" ->
     Main.use_levels (Main.param r) = Main.Bool false
     /\ Main.weight_gamma (Main.param r) = Main.Int 0)
    /\ (given "-l" \/ given "-t2" ->
        Main.weight_gamma (Main.param r)
        = match Main.get "-weight" args with
          | Some x => x
          | None => Main.weight_gamma p
          end
        /\ match Main.get "-use-levels" args with
           | Some x =>
               exists z, int x = Ok z
                         /\ Main.use_levels (Main.param r)
                            = Main.Bool (Main.bool_of_int z)
           | None => Main.use_levels (Main.param r) = Main.use_levels p
           end).
Proof.
  intros int p args r Hd Hm given.
  unfold Main.main in Hm. rewrite Hd in Hm. cbv zeta in Hm.
  went_on Hm.
  injection Hm as <-. cbn [Main.param Main.use_levels Main.weight_gamma].
  match goal with
  | T : Main.if_in "-t2" _ _ _ = Ok ?t, L : Main.if_in "-l" _ _ _ = Ok ?l,
    U : Main.if_in "-use-levels" _ _ _ = Ok ?u,
    W : Main.if_in "-weight" _ _ _ = Ok ?g |- _ =>
      pose proof (if_in_Ok _ _ _ _ T) as Et;
      pose proof (if_in_Ok _ _ _ _ L) as El;
      pose proof (if_in_Ok _ _ _ _ W) as Ew;
      pose proof (if_in_flag _ _ _ _ _ U) as Eu;
      rename t into t2, l into lvl, u into ul, g into wg
  end.
  assert (Hnone : forall k v,
             v = match Main.get k args with
                 | Some a => a
                 | None => Main.NoneValue
                 end ->
             (Main.is_None v = true <-> ~ given k)).
  { intros k x ->. unfold given.
    destruct (Main.get k args) as [a|].
    - destruct a; cbn; split; try discriminate; try reflexivity.
      all: try (intros _ (b & Hv & Hn); injection Hv as <-; now apply Hn).
      all: intros Hn; exfalso; apply Hn; eexists; split;
        [reflexivity|discriminate].
    - cbn. split; [|reflexivity]. intros _ (b & Hv & _). discriminate. }
  pose proof (Hnone "-l" lvl El) as Hl.
  pose proof (Hnone "-t2" t2 Et) as Ht.
  split.
  - intros Nl Nt.
    apply Hl in Nl. apply Ht in Nt. rewrite Nl, Nt. cbn. now split.
  - intros Hg.
    assert (Hno : Main.is_None lvl && Main.is_None t2 = false).
    { destruct (Main.is_None lvl) eqn:Il; [|reflexivity].
      destruct (Main.is_None t2) eqn:It; [|reflexivity].
      exfalso. destruct Hg as [Hg|Hg].
      - now apply (proj1 Hl).
      - now apply (proj1 Ht). }
    rewrite Hno. split; [exact Ew|].
    destruct (Main.get "-use-levels" args); exact Eu.
Qed.

Lemma main_switches_the_levels_off_without_level_data_witness :
  exists r,
    Main.main small_int default_param
      [("-i", Main.Str "t2star.nii.gz"); ("-s", Main.Str "t2star_seg.nii.gz");
       ("-use-levels", Main.Str "1"); ("-weight", Main.Float 3)] = Ok r
    /\ Main.use_levels (Main.param r) = Main.Bool false
    /\ Main.weight_gamma (Main.param r) = Main.Int 0.
Proof.
  destruct (Main.main small_int default_param
              [("-i", Main.Str "t2star.nii.gz");
               ("-s", Main.Str "t2star_seg.nii.gz");
               ("-use-levels", Main.Str "1"); ("-weight", Main.Float 3)])
    as [r|e] eqn:E; [|vm_compute in E; discriminate E].
  exists r. split; [reflexivity|].
  apply (proj1 (main_switches_the_levels_off_without_level_data
                  small_int default_param _ r eq_refl E)).
  - intros (v & Hv & _). vm_compute in Hv. discriminate Hv.
  - intros (v & Hv & _). vm_compute in Hv. discriminate Hv.
Defined.

(** X20.  The block depends on [arguments] through the fifteen keys it
    looks for only: two command lines that agree on these keys give the
    same outcome.  The key [-medians], under which line 423 declares the
    median intensities, is not one of them (line 485 looks for [-means]). *)
Theorem main_reads_its_own_keys_only :
  forall int p a1 a2,
    (forall k, In k Main.keys_read -> Main.get k a1 = Main.get k a2) ->
    Main.main int p a1 = Main.main int p a2
    /\ ~ In "-medians" Main.keys_read.
Proof.
  intros int p a1 a2 H. split.
  - unfold Main.main, Main.getitem, Main.if_in.
    repeat match goal with
           | |- context [Main.get ?k a1] =>
               rewrite (H k) by (unfold Main.keys_read; in_list)
           end.
    reflexivity.
  - unfold Main.keys_read. cbn.
    intros Hin.
    repeat match type of Hin with
           | _ \/ _ => destruct Hin as [Hin|Hin]; [discriminate Hin|]
           end.
    exact Hin.
Qed.

Lemma main_reads_its_own_keys_only_witness :
  Main.main small_int default_param
    [("-medians", Main.FloatList [450 # 1; 540 # 1]);
     ("-i", Main.Str "t2star.nii.gz"); ("-s", Main.Str "t2star_seg.nii.gz")]
  = Main.main small_int default_param
      [("-i", Main.Str "t2star.nii.gz"); ("-s", Main.Str "t2star_seg.nii.gz")].
Proof.
  apply main_reads_its_own_keys_only.
  intros k Hk. unfold Main.keys_read in Hk. cbn in Hk.
  repeat match type of Hk with
         | _ \/ _ => destruct Hk as [Hk|Hk]; [rewrite <- Hk; reflexivity|]
         end.
  contradiction.
Defined.

(** X21.  The block fails in four ways only.  In the debug mode: a
    [TypeError] when [param.path_model] is not a string (lines 364-365 add
    a string to it), and then it does fail.  Outside it: [KeyError] for a
    missing [-i]; [KeyError] for a missing [-s] when [-i] is there; or the
    error of [int] on the value of [-use-levels], [-denoising] or
    [-normalize].  Every other argument is taken as it comes. *)
Theorem main_fails_on_a_missing_input_or_a_bad_flag :
  forall int p args,
    (forall e,
        Main.main int p args = Raise e ->
        (Main.debug p = true /\ e = TypeError
         /\ forall s, Main.path_model p <> Main.Str s)
        \/ (Main.debug p = false
            /\ ((Main.get "-i" args = None /\ e = KeyError "-i")
                \/ (Main.get "-i" args <> None /\ Main.get "-s" args = None
                    /\ e = KeyError "-s")
                \/ (exists k v,
                       In k ["-use-levels"; "-denoising"; "-normalize"]
                       /\ Main.get k args = Some v /\ int v = Raise e))))
    /\ (Main.debug p = true ->
        (forall s, Main.path_model p <> Main.Str s) ->
        Main.main int p args = Raise TypeError).
Proof.
  intros int p args. split.
  2:{ intros Hd Hs. unfold Main.main. rewrite Hd.
      destruct (Main.path_model p) as [s| | | | | |]; try reflexivity.
      now destruct (Hs s). }
  intros e Hm.
  unfold Main.main in Hm.
  destruct (Main.debug p).
  { left. split; [reflexivity|].
    destruct (Main.path_model p) as [s| | | | | |]; cbn in Hm;
      try discriminate Hm.
    all: split; [now injection Hm|discriminate]. }
  right. split; [reflexivity|].
  cbv zeta in Hm. unfold Main.getitem in Hm.
  destruct (Main.get "-i" args) as [i|] eqn:Gi; cbn [Main.bindr] in Hm;
    [|left; split; [reflexivity|now injection Hm]].
  destruct (Main.get "-s" args) as [s|] eqn:Gs; cbn [Main.bindr] in Hm;
    [|right; left; split; [discriminate|split; [reflexivity|now injection Hm]]].
  right; right.
  repeat match type of Hm with
         | Main.bindr ?r _ = Raise _ =>
             let v := fresh "v" in
             let E := fresh "E" in
             destruct r as [v|?] eqn:E; cbn [Main.bindr] in Hm
         end.
  all: try discriminate Hm.
  all: injection Hm as ->.
  all: try match goal with
           | E : Main.if_in _ _ Ok _ = Raise _ |- _ =>
               now apply if_in_Ok_total in E
           end.
  all: try match goal with
           | E : Main.if_in ?k _ (Main.flag _) _ = Raise _ |- _ =>
               apply if_in_flag_raises in E; destruct E as (a & Ga & Ia);
               exists k, a; split; [in_list|split; assumption]
           end.
  all: match goal with
       | E : Main.if_in ?k ?a (fun _ => Ok true) _ = Raise _ |- _ =>
           unfold Main.if_in in E; destruct (Main.get k a); discriminate E
       end.
Qed.

(** X21 in the debug mode, with a model path that was never set. *)
Lemma main_fails_on_a_missing_input_or_a_bad_flag_witness :
  Main.main small_int debug_param [] = Raise TypeError.
Proof.
  apply (proj2 (main_fails_on_a_missing_input_or_a_bad_flag
                  small_int debug_param [])).
  - reflexivity.
  - intros s. discriminate.
Defined.
